(** * CUDA-Z device benchmark worker: model and verification

    Shallow embedding of [src/src/czdeviceinfo.cpp]: the update thread
    [CZUpdateThread] (constructor, destructor, [testPerformance],
    [waitPerformance], [run]) and the device container
    [CZCudaDeviceInfo] ([prepareDevice], [updateInfo], [cleanDevice]).

    The threads are modelled as an interleaving transition system.  Every
    source statement that touches shared data, the mutex or a wait
    condition is one atomic step, and a statement that reads a shared
    member twice outside the mutex (lines 137-138) is one step per read; a
    thread is identified by a program location, and the shared members of
    [CZUpdateThread] are fields of the state.  A wait condition is the
    list of the threads parked on it. *)

From Stdlib Require Import ZArith Lia List Bool Ascii String.
From stdpp Require Import base decidable option numbers list strings.
Import ListNotations.

(** ** Threads, calls and program locations *)

(** The worker thread ([run]) and the threads that call into the object. *)
Inductive tid := Worker | Client (n : nat).

(** The entry points a caller can use:
    [testPerformance(i)], [waitPerformance()] and the destructor. *)
Inductive call := Test (i : Z) | Wait | Destroy.

(** Program locations of [CZUpdateThread::run]; the number is the source
    line of the statement the location is about to execute. *)
Inductive wloc :=
| W_off            (* thread not running: never started, or run() returned *)
| W_prepare        (* 105  info->prepareDevice() *)
| W_lock_ready     (* 107  mutex.lock() *)
| W_set_ready      (* 108  deviceReady = true *)
| W_wake_ready     (* 109  readyForWork.wakeAll() *)
| W_wait           (* 114  newLoop.wait(&mutex): unlock and park *)
| W_blocked        (* 114  parked on newLoop, then re-locking the mutex *)
| W_copy_index     (* 115  index = this->index *)
| W_unlock_loop    (* 116  mutex.unlock() *)
| W_abort1         (* 120  if(abort) *)
| W_lock_abort1    (* 121  mutex.lock(); break *)
| W_lock_begin     (* 125  mutex.lock() *)
| W_set_running    (* 126  testRunning = true *)
| W_wake_start     (* 127  testStart.wakeAll() *)
| W_unlock_begin   (* 128  mutex.unlock() *)
| W_update         (* 130  info->updateInfo() is called *)
| W_updating       (* 130  info->updateInfo() is executing and returns *)
| W_lock_end       (* 132  mutex.lock() *)
| W_clear_running  (* 133  testRunning = false *)
| W_wake_finish    (* 134  testFinish.wakeAll() *)
| W_unlock_end     (* 135  mutex.unlock() *)
| W_test_index     (* 137  if(index != -1) *)
| W_emit           (* 138  emit testedPerformance(index) *)
| W_abort2         (* 140  if(abort) *)
| W_lock_abort2    (* 141  mutex.lock(); break *)
| W_lock_loop      (* 145  mutex.lock() *)
| W_clear_ready    (* 148  deviceReady = false *)
| W_unlock_exit    (* 149  mutex.unlock() *)
| W_clean.         (* 151  info->cleanDevice() *)

(** Program locations of a caller: [T_] inside [testPerformance],
    [P_] inside the rest of [waitPerformance], [D_] inside the destructor. *)
Inductive cloc :=
| C_idle           (* between two calls *)
| T_lock           (* 63   mutex.lock() *)
| T_set_index      (* 64   this->index = index *)
| T_check_running  (* 65   if(!isRunning()) start() *)
| T_check_ready    (* 70   while(!deviceReady) *)
| T_blocked        (* 71   readyForWork.wait(&mutex): parked, then re-locking *)
| T_wake_loop      (* 73   newLoop.wakeOne() *)
| T_unlock         (* 74   mutex.unlock() *)
| P_lock           (* 86   mutex.lock() *)
| P_check_start    (* 88   while(!testRunning) *)
| P_blocked_start  (* 89   testStart.wait(&mutex) *)
| P_seen_start     (* 90   qDebug: the test has begun *)
| P_check_finish   (* 91   while(testRunning) *)
| P_blocked_finish (* 92   testFinish.wait(&mutex) *)
| P_unlock         (* 93   mutex.unlock() *)
| D_lock           (* 39   mutex.lock() *)
| D_set_ready      (* 40   deviceReady = true *)
| D_wake_ready     (* 41   readyForWork.wakeOne() *)
| D_set_abort      (* 42   abort = true *)
| D_wake_loop      (* 43   newLoop.wakeOne() *)
| D_set_running    (* 44   testRunning = true *)
| D_wake_start     (* 45   testStart.wakeAll() *)
| D_clear_running  (* 46   testRunning = false *)
| D_wake_finish    (* 47   testFinish.wakeAll() *)
| D_unlock         (* 48   mutex.unlock() *)
| D_join.          (* 50   wait() *)

(** A caller thread: the calls it still has to make, the call it is in and
    where it stands in it. *)
Record client := Client_ {
  script : list call;
  cur : option call;
  pc : cloc
}.

(** Observable events, kept in a log (most recent first).  The log is not
    read by any step: it only records what happened. *)
Inductive event :=
| EvCall (n : nat) (c : call)     (* caller n enters call c *)
| EvRequest (n : nat)             (* caller n executes newLoop.wakeOne() in testPerformance *)
| EvReturn (n : nat) (c : call)   (* call c of caller n returns *)
| EvPrepare                       (* prepareDevice() executed *)
| EvReady                         (* worker sets deviceReady *)
| EvBegin                         (* worker sets testRunning *)
| EvInvoke                        (* updateInfo() called *)
| EvDone                          (* updateInfo() returned *)
| EvEnd                           (* worker clears testRunning *)
| EvEmit (i : Z)                  (* emit testedPerformance(i) *)
| EvClean                         (* cleanDevice() executed *)
| EvAbort.                        (* the destructor sets abort *)

#[global] Instance tid_eq_dec : EqDecision tid.
Proof. solve_decision. Defined.
#[global] Instance call_eq_dec : EqDecision call.
Proof. solve_decision. Defined.
#[global] Instance wloc_eq_dec : EqDecision wloc.
Proof. solve_decision. Defined.
#[global] Instance cloc_eq_dec : EqDecision cloc.
Proof. solve_decision. Defined.
#[global] Instance client_eq_dec : EqDecision client.
Proof. solve_decision. Defined.
#[global] Instance event_eq_dec : EqDecision event.
Proof. solve_decision. Defined.

(** ** The shared state *)

Record state := State {
  abort : bool;                (* CZUpdateThread::abort *)
  testRunning : bool;          (* CZUpdateThread::testRunning *)
  deviceReady : bool;          (* CZUpdateThread::deviceReady *)
  index : Z;                   (* CZUpdateThread::index *)
  mutex : option tid;          (* QMutex mutex: its holder *)
  readyForWork : list tid;     (* QWaitCondition: the parked threads *)
  newLoop : list tid;
  testStart : list tid;
  testFinish : list tid;
  wk : wloc;                   (* where run() stands *)
  clients : list client;
  log : list event
}.

#[global] Instance state_eq_dec : EqDecision state.
Proof. solve_decision. Defined.

Definition set_abort b s := State b (testRunning s) (deviceReady s) (index s) (mutex s) (readyForWork s) (newLoop s) (testStart s) (testFinish s) (wk s) (clients s) (log s).
Definition set_testRunning b s := State (abort s) b (deviceReady s) (index s) (mutex s) (readyForWork s) (newLoop s) (testStart s) (testFinish s) (wk s) (clients s) (log s).
Definition set_deviceReady b s := State (abort s) (testRunning s) b (index s) (mutex s) (readyForWork s) (newLoop s) (testStart s) (testFinish s) (wk s) (clients s) (log s).
Definition set_index i s := State (abort s) (testRunning s) (deviceReady s) i (mutex s) (readyForWork s) (newLoop s) (testStart s) (testFinish s) (wk s) (clients s) (log s).
Definition set_mutex m s := State (abort s) (testRunning s) (deviceReady s) (index s) m (readyForWork s) (newLoop s) (testStart s) (testFinish s) (wk s) (clients s) (log s).
Definition set_readyForWork q s := State (abort s) (testRunning s) (deviceReady s) (index s) (mutex s) q (newLoop s) (testStart s) (testFinish s) (wk s) (clients s) (log s).
Definition set_newLoop q s := State (abort s) (testRunning s) (deviceReady s) (index s) (mutex s) (readyForWork s) q (testStart s) (testFinish s) (wk s) (clients s) (log s).
Definition set_testStart q s := State (abort s) (testRunning s) (deviceReady s) (index s) (mutex s) (readyForWork s) (newLoop s) q (testFinish s) (wk s) (clients s) (log s).
Definition set_testFinish q s := State (abort s) (testRunning s) (deviceReady s) (index s) (mutex s) (readyForWork s) (newLoop s) (testStart s) q (wk s) (clients s) (log s).
Definition set_wk w s := State (abort s) (testRunning s) (deviceReady s) (index s) (mutex s) (readyForWork s) (newLoop s) (testStart s) (testFinish s) w (clients s) (log s).
Definition set_clients cs s := State (abort s) (testRunning s) (deviceReady s) (index s) (mutex s) (readyForWork s) (newLoop s) (testStart s) (testFinish s) (wk s) cs (log s).
Definition push e s := State (abort s) (testRunning s) (deviceReady s) (index s) (mutex s) (readyForWork s) (newLoop s) (testStart s) (testFinish s) (wk s) (clients s) (e :: log s).

(** ** Mutex and wait conditions (QMutex, QWaitCondition) *)

(** [mutex.lock()]: enabled only while the mutex is free. *)
Definition acquire (t : tid) (s : state) : option state :=
  match mutex s with
  | None => Some (set_mutex (Some t) s)
  | Some _ => None
  end.

(** [mutex.unlock()]. *)
Definition release (s : state) : state := set_mutex None s.

Definition parked (t : tid) (q : list tid) : bool := bool_decide (t ∈ q).

(** [wakeOne()]: one of the parked threads (chosen by [pick]) leaves the
    wait condition; with nobody parked the wake-up is lost. *)
Definition wake_one (pick : nat) (q : list tid) : option (list tid) :=
  match q with
  | [] => Some []
  | _ => if bool_decide (pick < length q)%nat then Some (delete pick q) else None
  end.

Definition unpark (t : tid) (q : list tid) : list tid :=
  filter (λ x, x ≠ t) q.

(** The second half of [wait(&mutex)]: a thread that is no longer parked
    re-locks the mutex. *)
Definition resume (t : tid) (q : list tid) (s : state) : option state :=
  if parked t q then None else acquire t s.

(** ** The worker: [CZUpdateThread::run] (lines 101-152) *)

Definition exec_worker (s : state) : option state :=
  match wk s with
  | W_off => None
  | W_prepare => Some (set_wk W_lock_ready (push EvPrepare s))
  | W_lock_ready => set_wk W_set_ready <$> acquire Worker s
  | W_set_ready => Some (set_wk W_wake_ready (set_deviceReady true (push EvReady s)))
  | W_wake_ready => Some (set_wk W_wait (set_readyForWork [] s))
  | W_wait => Some (set_wk W_blocked (set_newLoop (Worker :: newLoop s) (release s)))
  | W_blocked => set_wk W_copy_index <$> resume Worker (newLoop s) s
  | W_copy_index => Some (set_wk W_unlock_loop (set_index (index s) s))
  | W_unlock_loop => Some (set_wk W_abort1 (release s))
  | W_abort1 => Some (set_wk (if abort s then W_lock_abort1 else W_lock_begin) s)
  | W_lock_abort1 => set_wk W_clear_ready <$> acquire Worker s
  | W_lock_begin => set_wk W_set_running <$> acquire Worker s
  | W_set_running => Some (set_wk W_wake_start (set_testRunning true (push EvBegin s)))
  | W_wake_start => Some (set_wk W_unlock_begin (set_testStart [] s))
  | W_unlock_begin => Some (set_wk W_update (release s))
  | W_update => Some (set_wk W_updating (push EvInvoke s))
  | W_updating => Some (set_wk W_lock_end (push EvDone s))
  | W_lock_end => set_wk W_clear_running <$> acquire Worker s
  | W_clear_running => Some (set_wk W_wake_finish (set_testRunning false (push EvEnd s)))
  | W_wake_finish => Some (set_wk W_unlock_end (set_testFinish [] s))
  | W_unlock_end => Some (set_wk W_test_index (release s))
  | W_test_index =>
      Some (set_wk (if (index s =? -1)%Z then W_abort2 else W_emit) s)
  | W_emit => Some (set_wk W_abort2 (push (EvEmit (index s)) s))
  | W_abort2 => Some (set_wk (if abort s then W_lock_abort2 else W_lock_loop) s)
  | W_lock_abort2 => set_wk W_clear_ready <$> acquire Worker s
  | W_lock_loop => set_wk W_wait <$> acquire Worker s
  | W_clear_ready => Some (set_wk W_unlock_exit (set_deviceReady false s))
  | W_unlock_exit => Some (set_wk W_clean (release s))
  | W_clean => Some (set_wk W_off (push EvClean s))
  end.

(** ** The callers: [testPerformance] (58-75), [waitPerformance] (80-96)
    and [~CZUpdateThread] (37-53) *)

Definition set_client (n : nat) (c : client) (s : state) : state :=
  set_clients (<[n := c]> (clients s)) s.

(** Caller [n] moves to location [p]. *)
Definition goto (n : nat) (c : client) (p : cloc) (s : state) : state :=
  set_client n (Client_ (script c) (cur c) p) s.

(** The current call of caller [n] returns. *)
Definition ret (n : nat) (c : client) (s : state) : state :=
  match cur c with
  | Some k => set_client n (Client_ (script c) None C_idle) (push (EvReturn n k) s)
  | None => set_client n (Client_ (script c) None C_idle) s
  end.

(** The argument [testPerformance] is entered with:
    [waitPerformance] calls [testPerformance(-1)]. *)
Definition requested_index (c : client) : Z :=
  match cur c with
  | Some (Test i) => i
  | _ => (-1)%Z
  end.

Definition entry (k : call) : cloc :=
  match k with
  | Test _ | Wait => T_lock
  | Destroy => D_lock
  end.

Definition exec_client (n pick : nat) (c : client) (s : state) : option state :=
  let me := Client n in
  match pc c with
  | C_idle =>
      match script c with
      | [] => None
      | k :: rest =>
          Some (set_client n (Client_ rest (Some k) (entry k)) (push (EvCall n k) s))
      end
  (* testPerformance *)
  | T_lock => goto n c T_set_index <$> acquire me s
  | T_set_index => Some (goto n c T_check_running (set_index (requested_index c) s))
  | T_check_running =>
      Some (goto n c T_check_ready
              (match wk s with W_off => set_wk W_prepare s | _ => s end))
  | T_check_ready =>
      if deviceReady s then Some (goto n c T_wake_loop s)
      else Some (goto n c T_blocked
                   (set_readyForWork (me :: readyForWork s) (release s)))
  | T_blocked => goto n c T_check_ready <$> resume me (readyForWork s) s
  | T_wake_loop =>
      q ← wake_one pick (newLoop s);
      Some (goto n c T_unlock (set_newLoop q (push (EvRequest n) s)))
  | T_unlock =>
      match cur c with
      | Some Wait => Some (goto n c P_lock (release s))
      | _ => Some (ret n c (release s))
      end
  (* waitPerformance, after testPerformance(-1) *)
  | P_lock => goto n c P_check_start <$> acquire me s
  | P_check_start =>
      if testRunning s then Some (goto n c P_seen_start s)
      else Some (goto n c P_blocked_start
                   (set_testStart (me :: testStart s) (release s)))
  | P_blocked_start => goto n c P_check_start <$> resume me (testStart s) s
  | P_seen_start => Some (goto n c P_check_finish s)
  | P_check_finish =>
      if testRunning s
      then Some (goto n c P_blocked_finish
                   (set_testFinish (me :: testFinish s) (release s)))
      else Some (goto n c P_unlock s)
  | P_blocked_finish => goto n c P_check_finish <$> resume me (testFinish s) s
  | P_unlock => Some (ret n c (release s))
  (* ~CZUpdateThread *)
  | D_lock => goto n c D_set_ready <$> acquire me s
  | D_set_ready => Some (goto n c D_wake_ready (set_deviceReady true s))
  | D_wake_ready =>
      q ← wake_one pick (readyForWork s);
      Some (goto n c D_set_abort (set_readyForWork q s))
  | D_set_abort => Some (goto n c D_wake_loop (set_abort true (push EvAbort s)))
  | D_wake_loop =>
      q ← wake_one pick (newLoop s);
      Some (goto n c D_set_running (set_newLoop q s))
  | D_set_running => Some (goto n c D_wake_start (set_testRunning true s))
  | D_wake_start => Some (goto n c D_clear_running (set_testStart [] s))
  | D_clear_running => Some (goto n c D_wake_finish (set_testRunning false s))
  | D_wake_finish => Some (goto n c D_unlock (set_testFinish [] s))
  | D_unlock => Some (goto n c D_join (release s))
  | D_join =>
      (* QThread::wait(): returns once the thread is not running *)
      match wk s with
      | W_off => Some (ret n c s)
      | _ => None
      end
  end.

(** ** The transition system *)

(** [Step t pick]: thread [t] executes its next statement ([pick] selects
    the thread a [wakeOne] wakes).  [Spurious t]: a parked thread [t]
    leaves its wait condition without having been signalled. *)
Inductive label := Step (t : tid) (pick : nat) | Spurious (t : tid).

Definition is_parked (t : tid) (s : state) : bool :=
  parked t (readyForWork s) || parked t (newLoop s)
  || parked t (testStart s) || parked t (testFinish s).

Definition exec (l : label) (s : state) : option state :=
  match l with
  | Step Worker _ => exec_worker s
  | Step (Client n) pick => c ← clients s !! n; exec_client n pick c s
  | Spurious t =>
      if is_parked t s
      then Some (set_readyForWork (unpark t (readyForWork s))
                   (set_newLoop (unpark t (newLoop s))
                      (set_testStart (unpark t (testStart s))
                         (set_testFinish (unpark t (testFinish s)) s))))
      else None
  end.

Definition spurious (l : label) : bool :=
  match l with Spurious _ => true | Step _ _ => false end.

(** Runs a schedule, first label first. *)
Fixpoint run (ls : list label) (s : state) : option state :=
  match ls with
  | [] => Some s
  | l :: ls' => s' ← exec l s; run ls' s'
  end.

(** States reachable from [s0]. *)
Inductive reachable (s0 : state) : state -> Prop :=
| reach_refl : reachable s0 s0
| reach_step s l s' : reachable s0 s -> exec l s = Some s' -> reachable s0 s'.

(** The same without spurious wake-ups. *)
Inductive reachable_ns (s0 : state) : state -> Prop :=
| reach_ns_refl : reachable_ns s0 s0
| reach_ns_step s t pick s' :
    reachable_ns s0 s -> exec (Step t pick) s = Some s' -> reachable_ns s0 s'.

(** The object after construction.  [CZUpdateThread]'s constructor
    (19-31) clears the flags and sets [index = -1]; with [started] the
    owner has called [start()] as [CZCudaDeviceInfo]'s constructor does
    (line 171).  Every caller stands before its first call. *)
Definition init (started : bool) (scripts : list (list call)) : state :=
  State false false false (-1)%Z None [] [] [] []
    (if started then W_prepare else W_off)
    ((λ sc, Client_ sc None C_idle) <$> scripts) [].

(** No thread can take a step (spurious wake-ups apart). *)
Definition stuck (s : state) : Prop :=
  ∀ t pick, exec (Step t pick) s = None.

Definition W : label := Step Worker 0.
Definition C (n : nat) : label := Step (Client n) 0.

(** ** Reading the log *)

Fixpoint count (f : event -> bool) (l : list event) : nat :=
  match l with
  | [] => 0
  | e :: r => (if f e then 1 else 0) + count f r
  end.

(** Number of [f]-events more recent than the latest [stop]-event. *)
Fixpoint since (stop f : event -> bool) (l : list event) : nat :=
  match l with
  | [] => 0
  | e :: r => if stop e then 0 else (if f e then 1 else 0) + since stop f r
  end.

Definition is_begin e := match e with EvBegin => true | _ => false end.
Definition is_end e := match e with EvEnd => true | _ => false end.
Definition is_invoke e := match e with EvInvoke => true | _ => false end.
Definition is_done e := match e with EvDone => true | _ => false end.
Definition is_clean e := match e with EvClean => true | _ => false end.
Definition is_abort e := match e with EvAbort => true | _ => false end.
Definition is_prepare e := match e with EvPrepare => true | _ => false end.
Definition is_emit e := match e with EvEmit _ => true | _ => false end.
Definition is_request_any e := match e with EvRequest _ => true | _ => false end.
Definition is_request (n : nat) e :=
  match e with EvRequest m => bool_decide (m = n) | _ => false end.
Definition is_call (n : nat) e :=
  match e with EvCall m _ => bool_decide (m = n) | _ => false end.

(** The notifications emitted so far, most recent first. *)
Definition emitted (l : list event) : list Z :=
  omap (λ e, match e with EvEmit i => Some i | _ => None end) l.

(** The log older than the latest request of caller [n]. *)
Fixpoint before (n : nat) (l : list event) : list event :=
  match l with
  | [] => []
  | e :: r => if is_request n e then r else before n r
  end.

(** Benchmark operations called and not yet returned. *)
Definition in_flight (s : state) : nat :=
  count is_invoke (log s) - count is_done (log s).

(** ** Invariants *)

(** Where the worker stands inside a pass: 1 after setting [testRunning],
    2 inside [updateInfo], 3 after it and before clearing the flag. *)
Definition phase (w : wloc) : nat :=
  match w with
  | W_wake_start | W_unlock_begin | W_update => 1
  | W_updating => 2
  | W_lock_end | W_clear_running => 3
  | _ => 0
  end.

(** The worker's events are bracketed as its location says. *)
Definition pass_inv (s : state) : Prop :=
  let e := count is_end (log s) in
  count is_begin (log s) = (if (1 <=? phase (wk s))%nat then S e else e) /\
  count is_invoke (log s) = (if (2 <=? phase (wk s))%nat then S e else e) /\
  count is_done (log s) = (if (3 <=? phase (wk s))%nat then S e else e).

(** The locations at which a thread holds the mutex. *)
Definition holds_w (w : wloc) : bool :=
  match w with
  | W_set_ready | W_wake_ready | W_wait | W_copy_index | W_unlock_loop
  | W_set_running | W_wake_start | W_unlock_begin
  | W_clear_running | W_wake_finish | W_unlock_end
  | W_clear_ready | W_unlock_exit => true
  | _ => false
  end.

Definition holds_c (p : cloc) : bool :=
  match p with
  | T_set_index | T_check_running | T_check_ready | T_wake_loop | T_unlock
  | P_check_start | P_seen_start | P_check_finish | P_unlock
  | D_set_ready | D_wake_ready | D_set_abort | D_wake_loop | D_set_running
  | D_wake_start | D_clear_running | D_wake_finish | D_unlock => true
  | _ => false
  end.

Definition mutex_inv (s : state) : Prop :=
  (holds_w (wk s) = true -> mutex s = Some Worker) /\
  (forall n c, clients s !! n = Some c -> holds_c (pc c) = true ->
     mutex s = Some (Client n)).

(** What a caller knows right after each of its three wait loops. *)
Definition guard_inv (s : state) : Prop :=
  forall n c, clients s !! n = Some c ->
    (pc c = T_wake_loop -> deviceReady s = true) /\
    (pc c = P_seen_start -> testRunning s = true) /\
    (pc c = P_unlock -> testRunning s = false).

Definition sync_inv (s : state) : Prop := mutex_inv s /\ guard_inv s.

(** Destructor locations after [abort = true]. *)
Definition post_abort (p : cloc) : bool :=
  match p with
  | D_wake_loop | D_set_running | D_wake_start | D_clear_running
  | D_wake_finish | D_unlock | D_join => true
  | _ => false
  end.

(** Locations of [waitPerformance] after the first loop. *)
Definition seen_begin (p : cloc) : bool :=
  match p with
  | P_seen_start | P_check_finish | P_blocked_finish | P_unlock => true
  | _ => false
  end.

(** Every returned [waitPerformance] in the log has a worker [EvEnd]
    between its request and its return. *)
Fixpoint returns_after_end (l : list event) : Prop :=
  match l with
  | [] => True
  | e :: r =>
      match e with
      | EvReturn n Wait => 1 <= since (is_request n) is_end r
      | _ => True
      end /\ returns_after_end r
  end.

(** Every returned [waitPerformance] whose request was made with as many
    [EvBegin] as [EvEnd] behind it has an [EvBegin] after the request. *)
Fixpoint returns_after_begin (l : list event) : Prop :=
  match l with
  | [] => True
  | e :: r =>
      match e with
      | EvReturn n Wait =>
          count is_begin (before n r) = count is_end (before n r) ->
          1 <= since (is_request n) is_begin r
      | _ => True
      end /\ returns_after_begin r
  end.

(** While [abort] is clear no destructor has touched [testRunning]: the
    flag is the worker's, and a caller past the first loop of
    [waitPerformance] has seen it set after its request. *)
Definition wait_inv (s : state) : Prop :=
  abort s = false ->
  testRunning s = (1 <=? phase (wk s))%nat /\
  (forall n c, clients s !! n = Some c ->
     post_abort (pc c) = false /\
     (seen_begin (pc c) = true ->
        (testRunning s = true \/ 1 <= since (is_request n) is_end (log s)) /\
        (count is_begin (before n (log s)) = count is_end (before n (log s)) ->
         1 <= since (is_request n) is_begin (log s))) /\
     (pc c = P_unlock -> 1 <= since (is_request n) is_end (log s))) /\
  returns_after_end (log s) /\
  returns_after_begin (log s).

(** ** Scenarios *)

Definition sched_first_wait : list label :=
  repeat W 5 ++ repeat (C 0) 9 ++ repeat W 8 ++ repeat (C 0) 4 ++ repeat W 1.

Definition mid_pass : state :=
  Eval vm_compute in default (init true [[Wait]]) (run sched_first_wait (init true [[Wait]])).

Definition sched_seen_start : list label :=
  repeat W 5 ++ repeat (C 0) 9 ++ repeat W 8 ++ repeat (C 0) 2.

Definition caller_seen_start : state :=
  Eval vm_compute in
    default (init true [[Wait]]) (run sched_seen_start (init true [[Wait]])).

Definition sched_spurious : list label :=
  repeat W 5 ++ [Spurious Worker] ++ repeat W 9.

Definition after_spurious : state :=
  Eval vm_compute in default (init true []) (run sched_spurious (init true [])).

Definition sched_wait : list label :=
  repeat W 5 ++ repeat (C 0) 9 ++ repeat W 8 ++ repeat (C 0) 4
  ++ repeat W 6 ++ repeat (C 0) 3.

Definition after_wait : state :=
  Eval vm_compute in default (init true [[Wait]]) (run sched_wait (init true [[Wait]])).

(** [testPerformance(5)] then [waitPerformance()] from one thread: the pass
    of the first request is in flight when [waitPerformance] is entered. *)
Definition sched_wait_mid_flight : list label :=
  repeat W 5 ++ repeat (C 0) 7 ++ repeat W 9 ++ repeat (C 0) 11
  ++ repeat W 5 ++ repeat (C 0) 3 ++ repeat W 4.

Definition after_wait_mid_flight : state :=
  Eval vm_compute in
    default (init true [[Test 5; Wait]])
      (run sched_wait_mid_flight (init true [[Test 5; Wait]])).

(** [testPerformance(5)], then the destructor entered while the worker is
    inside [updateInfo]; the worker finishes the pass and tests [abort]
    (line 140) before the destructor has set it. *)
Definition sched_teardown_hang : list label :=
  repeat W 5 ++ repeat (C 0) 7 ++ repeat W 9 ++ repeat (C 0) 1
  ++ repeat W 8 ++ repeat (C 0) 10 ++ repeat W 2.

Definition after_teardown_hang : state :=
  Eval vm_compute in
    default (init true [[Test 5; Destroy]])
      (run sched_teardown_hang (init true [[Test 5; Destroy]])).

(** One thread inside [waitPerformance], waiting for the pass to begin,
    while another thread runs the destructor. *)
Definition sched_waiter_left : list label :=
  repeat W 5 ++ repeat (C 0) 9 ++ repeat (C 1) 11 ++ repeat (C 0) 2
  ++ repeat W 8 ++ repeat (C 1) 1.

Definition after_waiter_left : state :=
  Eval vm_compute in
    default (init true [[Wait]; [Destroy]])
      (run sched_waiter_left (init true [[Wait]; [Destroy]])).

(** ** Exhaustive exploration of a finite configuration *)

(** The labels that can be enabled in [s], spurious wake-ups apart. *)
Definition picks (s : state) : list nat :=
  seq 0 (S (length (readyForWork s) + length (newLoop s))).

Definition labels (s : state) : list label :=
  Step Worker 0
  :: flat_map (fun n => map (Step (Client n)) (picks s))
       (seq 0 (length (clients s))).

Definition succs (s : state) : list state :=
  omap (fun l => exec l s) (labels s).

Definition stuckb (s : state) : bool :=
  match succs s with [] => true | _ => false end.

(** [L] contains every successor of each of its members. *)
Definition closed (L : list state) : bool :=
  forallb (fun s => forallb (fun s' => bool_decide (s' ∈ L)) (succs s)) L.

Fixpoint explore (fuel : nat) (todo seen : list state) : list state :=
  match fuel with
  | 0 => seen
  | S fuel' =>
      match todo with
      | [] => seen
      | s :: rest =>
          if bool_decide (s ∈ seen) then explore fuel' rest seen
          else explore fuel' (succs s ++ rest) (s :: seen)
      end
  end.

(** Two back-to-back [testPerformance(5)] on a freshly constructed object. *)
Definition two_requests : state := init true [[Test 5; Test 5]].

Definition reach_two_requests : list state :=
  Eval vm_compute in explore (100 * 100) [two_requests] [].

(** What holds once the second request has been made with no pass ended
    before it. *)
Definition two_requests_spec (s : state) : Prop :=
  count is_request_any (log s) = 2 -> count is_end (before 0 (log s)) = 0 ->
  index s = 5%Z /\ count is_begin (log s) <= 1 /\
  Forall (fun i => i = 5%Z) (emitted (log s)) /\
  (stuckb s = true ->
     count is_begin (log s) = 1 /\ count is_end (log s) = 1 /\
     emitted (log s) = [5%Z] /\ wk s = W_blocked /\
     clients s = [Client_ [] None C_idle]).

Definition sched_two_requests : list label :=
  repeat W 5 ++ repeat (C 0) 14 ++ repeat W 19.

Definition after_two_requests : state :=
  Eval vm_compute in default two_requests (run sched_two_requests two_requests).

(** The locations inside [testPerformance]. *)
Definition in_testPerformance (p : cloc) : bool :=
  match p with
  | T_lock | T_set_index | T_check_running | T_check_ready | T_blocked
  | T_wake_loop | T_unlock => true
  | _ => false
  end.

(** A request for device 7 made while the pass of an earlier request is
    inside [updateInfo]. *)
Definition mid_request : state :=
  Eval vm_compute in
    default (init true [[Test 5; Test 7]])
      (run (repeat W 5 ++ repeat (C 0) 7 ++ repeat W 9) (init true [[Test 5; Test 7]])).

(** A request for device 7 made while the worker, woken by an earlier
    request, holds the mutex at line 126. *)
Definition worker_sets_running : state :=
  Eval vm_compute in
    default (init true [[Test 5; Test 7]])
      (run (repeat W 5 ++ repeat (C 0) 7 ++ repeat W 5) (init true [[Test 5; Test 7]])).

(** The first [testPerformance(5)] on an object whose thread was not
    started: the call has started it and waits in [readyForWork.wait]
    while [run] has yet to call [prepareDevice]. *)
Definition waits_for_prepare : state :=
  Eval vm_compute in
    default (init false [[Test 5]]) (run (repeat (C 0) 5) (init false [[Test 5]])).

(** [testPerformance(5)] called by one thread while another runs the
    destructor: the call tests [deviceReady] after [run] has cleared it
    (line 148) and before the thread has finished. *)
Definition sched_request_left : list label :=
  repeat W 5 ++ repeat (C 1) 11 ++ repeat W 7 ++ repeat (C 0) 5
  ++ repeat W 1 ++ repeat (C 1) 1.

Definition after_request_left : state :=
  Eval vm_compute in
    default (init true [[Test 5]; [Destroy]])
      (run sched_request_left (init true [[Test 5]; [Destroy]])).

(** The log older than the moment the destructor set [abort]. *)
Fixpoint before_abort (l : list event) : list event :=
  match l with
  | [] => []
  | e :: r => if is_abort e then r else before_abort r
  end.

(** The destructor is the only call, entered while the worker is parked
    on [newLoop]. *)
Definition destroy_while_parked : state :=
  Eval vm_compute in
    default (init true [[Destroy]]) (run (repeat W 5) (init true [[Destroy]])).

Definition reach_destroy_while_parked : list state :=
  Eval vm_compute in explore (100 * 100) [destroy_while_parked] [].

Definition reach_test_destroy : list state :=
  Eval vm_compute in explore (100 * 100) [init true [[Test 5; Destroy]]] [].

(** The teardown is complete: thread terminated, cleanup run once, no
    benchmark operation in flight, destructor returned. *)
Definition torn_down (s : state) : Prop :=
  wk s = W_off /\ count is_clean (log s) = 1 /\ in_flight s = 0 /\
  clients s = [Client_ [] None C_idle].

(** A caller standing in the destructor. *)
Definition in_destructor (p : cloc) : bool :=
  match p with
  | D_lock | D_set_ready | D_wake_ready | D_set_abort | D_wake_loop
  | D_set_running | D_wake_start | D_clear_running | D_wake_finish
  | D_unlock | D_join => true
  | _ => false
  end.

(** Every returned destructor in the log has a [cleanDevice] before it and
    no benchmark operation in flight at its return. *)
Fixpoint returns_after_clean (l : list event) : Prop :=
  match l with
  | [] => True
  | e :: r =>
      match e with
      | EvReturn _ Destroy =>
          1 <= count is_clean r /\ count is_invoke r = count is_done r
      | _ => True
      end /\ returns_after_clean r
  end.

Definition teardown_inv (s : state) : Prop :=
  (wk s = W_off -> 1 <= count is_clean (log s)) /\
  (forall n c, clients s !! n = Some c ->
     cur c = Some Destroy -> in_destructor (pc c) = true) /\
  returns_after_clean (log s).

(** ** The device container [CZCudaDeviceInfo] (lines 154-246) *)

(** [struct CZDeviceInfo].  Its declaration is in a header that is not
    among the sources; the fields are those the sources read. *)
Record CZDeviceInfoBand := {
  copyHDPin : Z; copyHDPage : Z; copyDHPin : Z; copyDHPage : Z; copyDD : Z
}.

Record CZDeviceInfoPerf := {
  calcFloat : Z; calcDouble : Z; calcInteger32 : Z; calcInteger24 : Z
}.

Record CZDeviceInfo := {
  num : Z; major : Z; heavyMode : Z;
  band : CZDeviceInfoBand;
  perf : CZDeviceInfoPerf
}.

(** The measured fields of the record. *)
Definition measurements (i : CZDeviceInfo) : CZDeviceInfoBand * CZDeviceInfoPerf :=
  (band i, perf i).

(** [memset(&_info, 0, sizeof(_info)); _info.num = devNum] (166-167). *)
Definition zeroed (devNum : Z) : CZDeviceInfo :=
  {| num := devNum; major := 0; heavyMode := 0;
     band := {| copyHDPin := 0; copyHDPage := 0; copyDHPin := 0;
                copyDHPage := 0; copyDD := 0 |};
     perf := {| calcFloat := 0; calcDouble := 0; calcInteger32 := 0;
                calcInteger24 := 0 |} |}.

(** The functions of the CUDA layer the container calls:
    [CZCudaReadDeviceInfo], [CZCudaPrepareDevice],
    [CZCudaCalcDeviceBandwidth], [CZCudaCalcDevicePerformance] and
    [CZCudaCleanDevice].  They are not among the sources: each is a
    parameter that takes the record and gives a return code and the record
    as it leaves it. *)
Inductive cuda_call :=
| ReadDeviceInfo | PrepareDevice | CalcDeviceBandwidth
| CalcDevicePerformance | CleanDevice.

Definition cuda_layer := cuda_call -> CZDeviceInfo -> Z * CZDeviceInfo.

Definition is_measurement (k : cuda_call) : bool :=
  match k with
  | CalcDeviceBandwidth | CalcDevicePerformance => true
  | _ => false
  end.

(** The container: the record [_info] and, for the proofs, the calls made
    into the CUDA layer with their return codes (most recent first). *)
Record device := Device {
  info : CZDeviceInfo;
  calls : list (cuda_call * Z)
}.

#[global] Instance cuda_call_eq_dec : EqDecision cuda_call.
Proof. solve_decision. Defined.

(** A small state monad over the container. *)
Definition dev (A : Type) : Type := device -> A * device.
Definition dev_ret {A} (x : A) : dev A := fun d => (x, d).
Definition dev_bind {A B} (m : dev A) (f : A -> dev B) : dev B :=
  fun d => let (x, d') := m d in f x d'.

Section Container.
Variable cuda : cuda_layer.

(** One call into the CUDA layer on [&_info]. *)
Definition invoke (k : cuda_call) : dev Z :=
  fun d =>
    let r := cuda k (info d) in
    (fst r, Device (snd r) ((k, fst r) :: calls d)).

(** [CZCudaDeviceInfo::readInfo] (185-187). *)
Definition readInfo : dev Z := invoke ReadDeviceInfo.

(** [CZCudaDeviceInfo::prepareDevice] (193-195). *)
Definition prepareDevice : dev Z := invoke PrepareDevice.

(** [CZCudaDeviceInfo::updateInfo] (201-207). *)
Definition updateInfo : dev Z :=
  dev_bind (invoke CalcDeviceBandwidth) (fun r =>
    if (r =? -1)%Z then dev_ret r
    else invoke CalcDevicePerformance).

(** [CZCudaDeviceInfo::cleanDevice] (213-215). *)
Definition cleanDevice : dev Z := invoke CleanDevice.

(** The container after the constructor's [memset] and [readInfo()]
    (166-168). *)
Definition construct (devNum : Z) : device :=
  snd (readInfo (Device (zeroed devNum) [])).

(** What a step of the threads does to the container: [run] calls
    [prepareDevice], [updateInfo] and [cleanDevice] and drops what
    they return. *)
Definition dev_step (l : label) (s : state) (d : device) : device :=
  match l with
  | Step Worker _ =>
      match wk s with
      | W_prepare => snd (prepareDevice d)
      | W_updating => snd (updateInfo d)
      | W_clean => snd (cleanDevice d)
      | _ => d
      end
  | _ => d
  end.

(** Threads and container together. *)
Definition exec_dev (l : label) (sd : state * device) : option (state * device) :=
  let (s, d) := sd in s' ← exec l s; Some (s', dev_step l s d).

Fixpoint run_dev (ls : list label) (sd : state * device) : option (state * device) :=
  match ls with
  | [] => Some sd
  | l :: ls' => sd' ← exec_dev l sd; run_dev ls' sd'
  end.

Inductive reachable_dev (sd0 : state * device) : state * device -> Prop :=
| reach_dev_refl : reachable_dev sd0 sd0
| reach_dev_step sd l sd' :
    reachable_dev sd0 sd -> exec_dev l sd = Some sd' -> reachable_dev sd0 sd'.

(** No bandwidth or throughput measurement has succeeded so far. *)
Definition no_measurement (d : device) : Prop :=
  Forall (fun kr => is_measurement (fst kr) = true -> snd kr = (-1)%Z) (calls d).

(** Modelled from the spec: the CUDA layer is not among the sources.
    A call that fails (returns -1) leaves the measured fields as they
    were, and only the two measurement calls write them. *)
Definition failure_keeps_fields : Prop :=
  forall k i, fst (cuda k i) = (-1)%Z ->
              measurements (snd (cuda k i)) = measurements i.

Definition only_measurements_write : Prop :=
  forall k i, is_measurement k = false ->
              measurements (snd (cuda k i)) = measurements i.
End Container.

(** While no measurement has succeeded the measured fields are [z]. *)
Definition fields_inv (z : CZDeviceInfoBand * CZDeviceInfoPerf) (d : device) : Prop :=
  no_measurement d -> measurements (info d) = z.

(** A CUDA layer in which every call fails and writes nothing. *)
Definition failing_cuda : cuda_layer := fun _ i => ((-1)%Z, i).

(** The worker woken by [testPerformance(5)], before it re-locks the mutex. *)
Definition woken_for_pass : state :=
  Eval vm_compute in
    default (init true [[Test 5]])
      (run (repeat W 5 ++ repeat (C 0) 7) (init true [[Test 5]])).

(** A device whose every call fails, through start-up, one request and
    its pass. *)
Definition failing_run : state * device :=
  Eval vm_compute in
    default (init true [[Test 5]], construct failing_cuda 0)
      (run_dev failing_cuda (repeat W 5 ++ repeat (C 0) 7 ++ repeat W 19)
         (init true [[Test 5]], construct failing_cuda 0)).

(** Caller 0 is left inside the first loop of [waitPerformance] of a
    terminated worker. *)
Definition left_blocked (s : state) : Prop :=
  wk s = W_off /\ testRunning s = false /\
  exists p, (p = P_blocked_start \/ p = P_check_start) /\
            clients s = [Client_ [] (Some Wait) p; Client_ [] None C_idle].

#[global] Instance two_requests_spec_dec s : Decision (two_requests_spec s).
Proof. unfold two_requests_spec. apply _. Defined.

#[global] Instance torn_down_dec s : Decision (torn_down s).
Proof. unfold torn_down. apply _. Defined.

(** ** Further invariants of the worker and its callers *)

(** 1 while a run of the thread has called [prepareDevice] and not yet
    [cleanDevice]. *)
Definition prepared (w : wloc) : nat :=
  match w with
  | W_off | W_prepare => 0
  | _ => 1
  end.

(** Every call of [updateInfo] in the log was made on a prepared device. *)
Fixpoint invokes_prepared (l : list event) : Prop :=
  match l with
  | [] => True
  | e :: r =>
      match e with
      | EvInvoke => count is_prepare r = S (count is_clean r)
      | _ => True
      end /\ invokes_prepared r
  end.

Definition device_inv (s : state) : Prop :=
  count is_prepare (log s) = count is_clean (log s) + prepared (wk s) /\
  invokes_prepared (log s).

(** 1 while the worker has been woken by a request whose pass has not yet
    begun. *)
Definition owes_pass (s : state) : nat :=
  match wk s with
  | W_lock_begin | W_set_running => 1
  | W_copy_index | W_unlock_loop | W_abort1 => if abort s then 0 else 1
  | W_blocked =>
      if parked Worker (newLoop s) then 0 else if abort s then 0 else 1
  | _ => 0
  end.

Definition request_inv (s : state) : Prop :=
  count is_begin (log s) + owes_pass s <= count is_request_any (log s) /\
  (newLoop s = [] \/ (newLoop s = [Worker] /\ wk s = W_blocked)) /\
  (forall n c, clients s !! n = Some c -> post_abort (pc c) = true ->
     abort s = true).

(** The call [k] passes [i] to [testPerformance]: [testPerformance(i)]
    itself, or [waitPerformance()], which calls [testPerformance(-1)]. *)
Definition passes (k : call) (i : Z) : Prop :=
  match k with
  | Test j => j = i
  | Wait => i = (-1)%Z
  | Destroy => False
  end.

(** Some call of some caller's script passes [i] to [testPerformance]. *)
Definition passed (scripts : list (list call)) (i : Z) : Prop :=
  exists sc k, In sc scripts /\ In k sc /\ passes k i.

(** 1 while a pass has ended and [run] has not yet passed lines 137-138. *)
Definition unreported (w : wloc) : nat :=
  match w with
  | W_wake_finish | W_unlock_end | W_test_index | W_emit => 1
  | _ => 0
  end.

(** [index] holds -1 or what a call has passed; between the two reads of
    lines 137 and 138 it holds what a call has passed. *)
Definition index_inv (scripts : list (list call)) (s : state) : Prop :=
  (index s = (-1)%Z \/ passed scripts (index s)) /\
  (forall n c, clients s !! n = Some c ->
     forall k, cur c = Some k \/ In k (script c) ->
       exists sc, In sc scripts /\ In k sc) /\
  (forall n c, clients s !! n = Some c -> in_testPerformance (pc c) = true ->
     exists k, cur c = Some k /\ passes k (requested_index c)) /\
  (wk s = W_emit -> passed scripts (index s)) /\
  Forall (passed scripts) (emitted (log s)) /\
  length (emitted (log s)) + unreported (wk s) <= count is_end (log s).

(** The locations of [run] inside its loop, and on its way out. *)
Definition in_loop (w : wloc) : bool :=
  match w with
  | W_wake_ready | W_wait | W_blocked | W_copy_index | W_unlock_loop
  | W_abort1 | W_lock_begin | W_set_running | W_wake_start | W_unlock_begin
  | W_update | W_updating | W_lock_end | W_clear_running | W_wake_finish
  | W_unlock_end | W_test_index | W_emit | W_abort2 | W_lock_loop => true
  | _ => false
  end.

Definition exiting (w : wloc) : bool :=
  match w with
  | W_lock_abort1 | W_lock_abort2 | W_clear_ready | W_unlock_exit | W_clean => true
  | _ => false
  end.

Definition ready_inv (s : state) : Prop :=
  (exiting (wk s) = true -> abort s = true) /\
  (abort s = false -> in_loop (wk s) = true -> deviceReady s = true).

(** ** Further scenarios *)

(** The first synchronous measurement: [waitPerformance()] on a freshly
    constructed object, as [CZDialog::readCudaDevices] does. *)
Definition first_wait : state := init true [[Wait]].

Definition reach_first_wait : list state :=
  Eval vm_compute in explore (100 * 100) [first_wait] [].

(** The call has returned after one pass. *)
Definition first_wait_done (s : state) : Prop :=
  clients s = [Client_ [] None C_idle] /\ wk s = W_blocked /\
  count is_begin (log s) = 1 /\ count is_end (log s) = 1 /\
  emitted (log s) = [].

(** The pass is over and the caller is parked on [testStart]. *)
Definition first_wait_missed (s : state) : Prop :=
  clients s = [Client_ [] (Some Wait) P_blocked_start] /\
  testStart s = [Client 0] /\ newLoop s = [Worker] /\ wk s = W_blocked /\
  testRunning s = false /\
  count is_begin (log s) = 1 /\ count is_end (log s) = 1.

#[global] Instance first_wait_done_dec s : Decision (first_wait_done s).
Proof. unfold first_wait_done. apply _. Defined.

#[global] Instance first_wait_missed_dec s : Decision (first_wait_missed s).
Proof. unfold first_wait_missed. apply _. Defined.

Definition sched_first_wait_done : list label :=
  repeat W 5 ++ repeat (C 0) 9 ++ repeat W 8 ++ repeat (C 0) 4
  ++ repeat W 6 ++ repeat (C 0) 3 ++ repeat W 4.

Definition after_first_wait_done : state :=
  Eval vm_compute in default first_wait (run sched_first_wait_done first_wait).

Definition sched_first_wait_missed : list label :=
  repeat W 5 ++ repeat (C 0) 7 ++ repeat W 18 ++ repeat (C 0) 2.

Definition after_first_wait_missed : state :=
  Eval vm_compute in default first_wait (run sched_first_wait_missed first_wait).

(** [testPerformance(5)] then [testPerformance(7)]. *)
Definition two_devices : state := init true [[Test 5; Test 7]].

Definition reach_two_devices : list state :=
  Eval vm_compute in explore (100 * 100) [two_devices] [].

Definition sched_both_notified : list label :=
  repeat W 5 ++ repeat (C 0) 7 ++ repeat W 19 ++ repeat (C 0) 7 ++ repeat W 19.

Definition sched_first_renamed : list label :=
  repeat W 5 ++ repeat (C 0) 7 ++ repeat W 9 ++ repeat (C 0) 7 ++ repeat W 10.

Definition sched_second_dropped : list label :=
  repeat W 5 ++ repeat (C 0) 7 ++ repeat W 16 ++ repeat (C 0) 7 ++ repeat W 3.

Definition after_both_notified : state :=
  Eval vm_compute in default two_devices (run sched_both_notified two_devices).

Definition after_first_renamed : state :=
  Eval vm_compute in default two_devices (run sched_first_renamed two_devices).

Definition after_second_dropped : state :=
  Eval vm_compute in default two_devices (run sched_second_dropped two_devices).

(** The destructor on an idle worker, run to its end. *)
Definition sched_destroy_parked : list label :=
  repeat (C 0) 11 ++ repeat W 8 ++ repeat (C 0) 1.

Definition after_destroy_parked : state :=
  Eval vm_compute in
    default destroy_while_parked (run sched_destroy_parked destroy_while_parked).

(** The destructor run inside a pass: [abort] is set while the worker is
    in [updateInfo]. *)
Definition sched_destroy_mid_pass : list label :=
  repeat W 5 ++ repeat (C 0) 7 ++ repeat W 9 ++ repeat (C 0) 11
  ++ repeat W 12 ++ repeat (C 0) 1.

Definition after_destroy_mid_pass : state :=
  Eval vm_compute in
    default (init true [[Test 5; Destroy]])
      (run sched_destroy_mid_pass (init true [[Test 5; Destroy]])).

(** What has been notified once nothing can move: device 5 then device 7
    (two passes), device 7 alone, or device 5 alone (one pass). *)
Definition two_devices_outcome (s : state) : Prop :=
  (emitted (log s) = [7%Z; 5%Z] /\ count is_begin (log s) = 2) \/
  (emitted (log s) = [7%Z] /\ count is_begin (log s) = 1) \/
  (emitted (log s) = [5%Z] /\ count is_begin (log s) = 1 /\ index s = 7%Z).

#[global] Instance two_devices_outcome_dec s : Decision (two_devices_outcome s).
Proof. unfold two_devices_outcome. apply _. Defined.

(** ** Who holds the mutex, and who has set the flags *)

(** Some caller stands at a location that satisfies [P]. *)
Definition some_client (P : cloc -> bool) (cs : list client) : Prop :=
  exists m c, cs !! m = Some c /\ P (pc c) = true.

(** The holder of the mutex stands between a [lock()] and the matching
    [unlock()] or [wait]. *)
Definition holder_inv (s : state) : Prop :=
  (mutex s = Some Worker -> holds_w (wk s) = true) /\
  (forall m, mutex s = Some (Client m) ->
     exists c, clients s !! m = Some c /\ holds_c (pc c) = true).

(** Only the worker is ever parked on [newLoop]. *)
Definition newLoop_inv (s : state) : Prop :=
  newLoop s = [] \/ (newLoop s = [Worker] /\ wk s = W_blocked).

(** Destructor locations after [deviceReady = true] (line 40) and before
    [abort = true] (line 42) has been executed. *)
Definition pre_abort (p : cloc) : bool :=
  match p with
  | D_wake_ready | D_set_abort => true
  | _ => false
  end.

(** Destructor locations after [testRunning = true] (line 44) and before
    [testRunning = false] (line 46) has been executed. *)
Definition flag_set (p : cloc) : bool :=
  match p with
  | D_wake_start | D_clear_running => true
  | _ => false
  end.

(** While [abort] is clear, [deviceReady] is set by [run], which is then
    inside its loop, or by a destructor that still holds the mutex. *)
Definition ready_owner_inv (s : state) : Prop :=
  abort s = false -> deviceReady s = true ->
  in_loop (wk s) = true \/ some_client pre_abort (clients s).

(** [testRunning] is set by [run], which is then inside a pass, or by a
    destructor that still holds the mutex. *)
Definition flag_inv (s : state) : Prop :=
  testRunning s = true ->
  1 <= phase (wk s) \/ some_client flag_set (clients s).

(** No caller is inside the destructor. *)
Definition no_destructor (s : state) : Prop :=
  forall m d, clients s !! m = Some d -> in_destructor (pc d) = false.

(** The statements the holder of the mutex has left before it releases
    the mutex, by [unlock()] or by a [wait], at the latest. *)
Definition wrank (w : wloc) : nat :=
  match w with
  | W_set_ready | W_set_running | W_clear_running => 3
  | W_wake_ready | W_copy_index | W_wake_start | W_wake_finish | W_clear_ready => 2
  | W_wait | W_unlock_loop | W_unlock_begin | W_unlock_end | W_unlock_exit => 1
  | _ => 0
  end.

Definition crank (p : cloc) : nat :=
  match p with
  | T_set_index => 5
  | T_check_running | P_check_start => 4
  | T_check_ready | P_seen_start => 3
  | T_wake_loop | P_check_finish => 2
  | T_unlock | P_unlock => 1
  | _ => 0
  end.

Definition rank (s : state) : nat :=
  match mutex s with
  | None => 0
  | Some Worker => wrank (wk s)
  | Some (Client m) => from_option (fun c => crank (pc c)) 0 (clients s !! m)
  end.

(** A [waitPerformance()] between the two reads of [index] at lines 137
    and 138, after [testPerformance(5)]. *)
Definition sched_report_minus_one : list label :=
  repeat W 5 ++ repeat (C 0) 7 ++ repeat W 15 ++ repeat (C 0) 3 ++ repeat W 1.

Definition after_report_minus_one : state :=
  Eval vm_compute in
    default (init true [[Test 5; Wait]])
      (run sched_report_minus_one (init true [[Test 5; Wait]])).

(** The caller of [waitPerformance()] holds the mutex at line 88 while the
    pass it asked for is running. *)
Definition caller_checks_start : state :=
  Eval vm_compute in
    default (init true [[Wait]])
      (run (repeat W 5 ++ repeat (C 0) 9 ++ repeat W 8 ++ repeat (C 0) 1)
         (init true [[Wait]])).

(** [testPerformance(5)] then [waitPerformance()] from one caller: the
    pass of the first request is inside [updateInfo] when
    [waitPerformance()] makes its request, and is over before the caller
    locks the mutex at line 86. *)
Definition sched_wait_left_behind : list label :=
  repeat W 5 ++ repeat (C 0) 7 ++ repeat W 9 ++ repeat (C 0) 7
  ++ repeat W 9 ++ repeat (C 0) 2.

Definition after_wait_left_behind : state :=
  Eval vm_compute in
    default (init true [[Test 5; Wait]])
      (run sched_wait_left_behind (init true [[Test 5; Wait]])).

(** ** The splash screen log [CZSplashScreen] (czdialog.cpp, lines 34-150) *)

(** [QString] is a [string]; the [int] members are in [Z].  The line
    counts are sizes of lists, and [m_maxLines] is only compared with a
    line count and subtracted from it: the difference [m_lines -
    m_maxLines] of lines 87 and 122 leaves the range of [int] only for a
    negative [m_maxLines] near [INT_MIN], which a statement about negative
    bounds has to exclude. *)

Definition INT_MAX : Z := 2 ^ 31 - 1.

Definition newline : ascii := "010"%char.

(** [QString::split(sep)], which keeps empty parts: the empty string
    splits into one empty part. *)
Fixpoint split (sep : ascii) (s : string) : list string :=
  match s with
  | EmptyString => [EmptyString]
  | String c r =>
      if Ascii.eqb c sep then EmptyString :: split sep r
      else match split sep r with
           | [] => [String c EmptyString]
           | x :: xs => String c x :: xs
           end
  end.

(** [QStringList::join(sep)]. *)
Fixpoint join (sep : ascii) (l : list string) : string :=
  match l with
  | [] => EmptyString
  | x :: r =>
      match r with
      | [] => x
      | _ => x +:+ String sep (join sep r)
      end
  end.

(** The character [c] does not occur in [s]. *)
Fixpoint free_of (c : ascii) (s : string) : bool :=
  match s with
  | EmptyString => true
  | String a r => negb (Ascii.eqb a c) && free_of c r
  end.

(** [n] times [QStringList::removeFirst()], which must not be called on an
    empty list. *)
Fixpoint removeFirst (n : nat) (l : list string) : option (list string) :=
  match n with
  | 0 => Some l
  | S k => match l with [] => None | _ :: r => removeFirst k r end
  end.

Record CZSplashScreen := Splash {
  m_message : string;
  m_lines : Z;
  m_maxLines : Z;
  m_alignment : Z;
  m_color : Z;
  screen : string          (* the message the QSplashScreen base shows *)
}.

(** The constructors (43-70); [Qt::AlignLeft] is 1, black is 0. *)
Definition CZSplashScreen_new (maxLines : Z) : CZSplashScreen :=
  Splash EmptyString 0 maxLines 1 0 EmptyString.

(** [QSplashScreen::showMessage(m_message, m_alignment, m_color)]. *)
Definition repaint (sp : CZSplashScreen) : CZSplashScreen :=
  Splash (m_message sp) (m_lines sp) (m_maxLines sp) (m_alignment sp)
    (m_color sp) (m_message sp).

(** [CZSplashScreen::deleteTop] (140-150). *)
Definition deleteTop (lines : Z) (sp : CZSplashScreen) : option CZSplashScreen :=
  linesList ← removeFirst (Z.to_nat lines) (split newline (m_message sp));
  Some (Splash (join newline linesList) (m_lines sp - lines) (m_maxLines sp)
          (m_alignment sp) (m_color sp) (screen sp)).

(** [CZSplashScreen::setMaxLines] (81-91). *)
Definition setMaxLines (maxLines : Z) (sp : CZSplashScreen) : option CZSplashScreen :=
  if (1 <=? maxLines)%Z then
    let sp1 := Splash (m_message sp) (m_lines sp) maxLines (m_alignment sp)
                 (m_color sp) (screen sp) in
    if (m_maxLines sp1 <? m_lines sp1)%Z
    then repaint <$> deleteTop (m_lines sp1 - m_maxLines sp1) sp1
    else Some sp1
  else Some sp.

(** [CZSplashScreen::maxLines] (97-99). *)
Definition maxLines (sp : CZSplashScreen) : Z := m_maxLines sp.

(** [CZSplashScreen::showMessage] (104-126). *)
Definition showMessage (message : string) (alignment color : Z)
    (sp : CZSplashScreen) : option CZSplashScreen :=
  let text :=
    if (String.length (m_message sp) =? 0)%nat then message
    else m_message sp +:+ String newline message in
  let sp1 := Splash text (Z.of_nat (length (split newline text))) (m_maxLines sp)
               alignment color (screen sp) in
  if (m_maxLines sp1 <? m_lines sp1)%Z
  then repaint <$> deleteTop (m_lines sp1 - m_maxLines sp1) sp1
  else Some (repaint sp1).

(** [CZSplashScreen::clearMessage] (131-135). *)
Definition clearMessage (sp : CZSplashScreen) : CZSplashScreen :=
  repaint (Splash EmptyString 0 (m_maxLines sp) (m_alignment sp) (m_color sp)
             (screen sp)).

(** What a user of the splash screen can do with it. *)
Inductive splash_op :=
| SetMaxLines (maxLines : Z)
| ShowMessage (message : string) (alignment color : Z)
| ClearMessage.

Definition splash_do (o : splash_op) (sp : CZSplashScreen) : option CZSplashScreen :=
  match o with
  | SetMaxLines n => setMaxLines n sp
  | ShowMessage m a c => showMessage m a c sp
  | ClearMessage => Some (clearMessage sp)
  end.

Fixpoint splash_run (os : list splash_op) (sp : CZSplashScreen) : option CZSplashScreen :=
  match os with
  | [] => Some sp
  | o :: os' => sp' ← splash_do o sp; splash_run os' sp'
  end.

(** [m_lines] counts the lines of [m_message]; an empty log counts no
    line after [clearMessage] or after all its lines were deleted. *)
Definition lines_ok (sp : CZSplashScreen) : Prop :=
  m_lines sp = Z.of_nat (length (split newline (m_message sp))) \/
  (m_message sp = EmptyString /\ m_lines sp = 0%Z).

Definition splash_inv (sp : CZSplashScreen) : Prop :=
  (0 <= m_lines sp <= m_maxLines sp)%Z /\ lines_ok sp /\ screen sp = m_message sp.

(** The text [showMessage] works on: the message alone if the log is
    empty, the log, a newline and the message otherwise. *)
Definition appended (message : string) (sp : CZSplashScreen) : string :=
  if (String.length (m_message sp) =? 0)%nat then message
  else m_message sp +:+ String newline message.

(** ** The version check [CZDialog::slotGetHistoryDone] (czdialog.cpp, lines 865-988) *)

Module QString.

(** [QString::left(n)]: the first [n] characters, the whole string if it
    is shorter. *)
Fixpoint left (n : nat) (s : string) : string :=
  match n, s with
  | S k, String c r => String c (left k r)
  | _, _ => EmptyString
  end.

(** [QString::remove(0, n)]: the string without its first [n] characters. *)
Fixpoint remove (n : nat) (s : string) : string :=
  match n, s with
  | S k, String c r => remove k r
  | _, _ => s
  end.

(** [QString::remove(QChar)]: every occurrence of the character removed. *)
Fixpoint removeChar (c : ascii) (s : string) : string :=
  match s with
  | EmptyString => EmptyString
  | String a r => if Ascii.eqb a c then removeChar c r else String a (removeChar c r)
  end.

(** [QString::isEmpty()]. *)
Definition isEmpty (s : string) : bool := (String.length s =? 0)%nat.

End QString.

(** What the build fixes and the sources do not: the macros
    [CZ_OS_PLATFORM_STR], [CZ_VER_MAJOR], [CZ_VER_MINOR] and [CZ_VER_BUILD]
    (which may be undefined) come from headers that are not among the
    sources. *)
Record build_config := {
  CZ_OS_PLATFORM_STR : string;
  CZ_VER_MAJOR : Z;
  CZ_VER_MINOR : Z;
  CZ_VER_BUILD : option Z
}.

Definition nameVersion : string := "version ".
Definition nameNotes : string := "release-notes ".
Definition nameDownload (cfg : build_config) : string :=
  "download-" +:+ CZ_OS_PLATFORM_STR cfg +:+ " ".

(** [line.left(name.size()) == name]. *)
Definition starts (name line : string) : bool :=
  String.eqb (QString.left (String.length name) line) name.

(** [line.remove(0, name.size())]. *)
Definition payload (name line : string) : string :=
  QString.remove (String.length name) line.

(** The local variables of the scan (883-890). *)
Record history_scan := Scan {
  validVersion : bool;
  version : string;
  notes : string;
  url : string;
  lastVersion : string;
  downloadUrl : string;
  releaseNotes : string
}.

Definition scan_start : history_scan :=
  Scan false EmptyString EmptyString EmptyString EmptyString EmptyString EmptyString.

(** [if(validVersion) { downloadUrl = url; releaseNotes = notes;
    lastVersion = version; }] (900-904 and 926-930). *)
Definition keep_valid (st : history_scan) : history_scan :=
  if validVersion st
  then Scan (validVersion st) (version st) (notes st) (url st)
         (version st) (url st) (notes st)
  else st.

(** The body of the loop over the lines (898-923): three tests, one after
    the other, on the same line. *)
Definition scan_line (cfg : build_config) (st : history_scan) (line : string)
    : history_scan :=
  let st1 :=
    if starts nameVersion line then
      let st0 := keep_valid st in
      Scan false (payload nameVersion line) EmptyString EmptyString
        (lastVersion st0) (downloadUrl st0) (releaseNotes st0)
    else st in
  let st2 :=
    if starts nameNotes line then
      Scan (validVersion st1) (version st1) (payload nameNotes line) (url st1)
        (lastVersion st1) (downloadUrl st1) (releaseNotes st1)
    else st1 in
  if starts (nameDownload cfg) line then
    Scan true (version st2) (notes st2) (payload (nameDownload cfg) line)
      (lastVersion st2) (downloadUrl st2) (releaseNotes st2)
  else st2.

(** Lines 896-930: the last valid version, its download address and its
    release notes. *)
Definition scan_history (cfg : build_config) (historyStrings : list string)
    : history_scan :=
  keep_valid (fold_left (scan_line cfg) historyStrings scan_start).

(** [GEN_VERSION(major, minor)] (944), an [int] expression, stored in an
    [unsigned int] (945-946): the value modulo [2^32]. *)
Definition GEN_VERSION (major minor : Z) : Z := major * 10000 + minor.
Definition unsigned_int (z : Z) : Z := z mod 2 ^ 32.

Definition dot : ascii := "."%char.

(** Lines 937-960: [(isNewest, isNonReleased)].  [versionNumbers[i]] must
    not be used with [i] out of range. [QString::toInt] is a parameter. *)
Definition compare_version (toInt : string -> Z) (cfg : build_config)
    (lastVersion : string) : option (bool * bool) :=
  if QString.isEmpty lastVersion then Some (true, false)
  else
    let versionNumbers := split dot lastVersion in
    let myVersion := unsigned_int (GEN_VERSION (CZ_VER_MAJOR cfg) (CZ_VER_MINOR cfg)) in
    v0 ← versionNumbers !! 0;
    v1 ← versionNumbers !! 1;
    let lastVersion := unsigned_int (GEN_VERSION (toInt v0) (toInt v1)) in
    if (myVersion <? lastVersion)%Z then Some (false, false)
    else if (myVersion =? lastVersion)%Z then
      match CZ_VER_BUILD cfg with
      | Some build =>
          v2 ← versionNumbers !! 2;
          Some (negb (build <? toInt v2)%Z, false)
      | None => Some (true, false)
      end
    else Some (true, true).

(** What [labelAppUpdate] is set to (871, 962-986). *)
Inductive update_link := Download (downloadUrl : string) | MainPage.

Inductive update_label :=
| CantLoad
| Prerelease
| NoNewVersion
| NewVersion (lastVersion : string) (link : update_link) (releaseNotes : option string).

Definition carriage_return : ascii := "013"%char.

(** [CZDialog::slotGetHistoryDone] (865-988); [history] is the [QString]
    of line 875, built from the [char *] of the reply: the bytes of the
    reply before its first NUL. *)
Definition slotGetHistoryDone (toInt : string -> Z) (cfg : build_config)
    (error : bool) (history : string) : option update_label :=
  if error then Some CantLoad
  else
    let historyStrings := split newline (QString.removeChar carriage_return history) in
    let st := scan_history cfg historyStrings in
    match compare_version toInt cfg (lastVersion st) with
    | None => None
    | Some (isNewest, isNonReleased) =>
        Some (if isNewest then
                if isNonReleased then Prerelease else NoNewVersion
              else
                NewVersion (lastVersion st)
                  (if QString.isEmpty (downloadUrl st) then MainPage
                   else Download (downloadUrl st))
                  (if QString.isEmpty (releaseNotes st) then None
                   else Some (releaseNotes st)))
    end.

(** The payload of the last line of [body] that starts with [name], [d]
    if there is none. *)
Definition last_payload (name : string) (d : string) (body : list string) : string :=
  fold_left (fun acc l => if starts name l then payload name l else acc) body d.

(** The three results of the scan. *)
Definition scan_result (st : history_scan) : string * string * string :=
  (lastVersion st, downloadUrl st, releaseNotes st).

(** A reading of decimal numerals, to run the check on examples; the
    theorems hold for any [toInt]. *)
Definition digit (c : ascii) : option Z :=
  let n := nat_of_ascii c in
  if (48 <=? n)%nat && (n <=? 57)%nat then Some (Z.of_nat (n - 48)) else None.

Fixpoint decimal_from (acc : Z) (s : string) : Z :=
  match s with
  | EmptyString => acc
  | String c r => match digit c with
                  | Some d => decimal_from (acc * 10 + d) r
                  | None => 0%Z
                  end
  end.

Definition decimal (s : string) : Z :=
  match s with EmptyString => 0%Z | _ => decimal_from 0 s end.

Definition linux_0_5_28 : build_config :=
  {| CZ_OS_PLATFORM_STR := "linux"; CZ_VER_MAJOR := 0; CZ_VER_MINOR := 5;
     CZ_VER_BUILD := Some 28%Z |}.

(** Version [a] is older than version [b]: major numbers first, then minor. *)
Definition older (a b : Z * Z) : Prop :=
  (fst a < fst b)%Z \/ (fst a = fst b /\ snd a < snd b)%Z.

(** ** The device list of the dialog (czdialog.cpp, lines 171-326) *)

(** [QList::operator[]], which must not be used with an index out of range. *)
Definition at_index {A} (l : list A) (i : Z) : option A :=
  if (i <? 0)%Z then None else l !! Z.to_nat i.

(** The dialog: the containers are named by the device number they were
    created with.  [containers] are those created with [new] and not
    deleted; the constructor of each has started its worker thread
    (line 171 of czdeviceinfo.cpp) and only [delete] tears it down.
    [comboDevice] is the number of items and the current index of the combo
    box: -1 when it is empty, and 0 once a first item is added. *)
Record CZDialog := Dialog {
  deviceList : list Z;
  containers : list Z;
  measured : list Z;            (* [waitPerformance] calls, oldest first *)
  comboDevice : nat * Z;
  shown : option Z              (* the device the tabs show *)
}.

Definition CZDialog_start : CZDialog := Dialog [] [] [] (0, (-1)%Z) None.

Section Dialog.
Variable cuda : cuda_layer.

(** [info->info().major != 0] for the container created for device [i]. *)
Definition readable (i : Z) : bool :=
  negb (major (info (construct cuda i)) =? 0)%Z.

(** The body of the loop of [readCudaDevices] (226-238); the call of
    [waitPerformance] is taken to return. *)
Definition readCudaDevice (d : CZDialog) (i : Z) : CZDialog :=
  let d1 := Dialog (deviceList d) (containers d ++ [i]) (measured d)
              (comboDevice d) (shown d) in
  if readable i then
    Dialog (deviceList d1 ++ [i]) (containers d1) (measured d1 ++ [i])
      (comboDevice d1) (shown d1)
  else d1.

(** [CZDialog::readCudaDevices] (220-240); [num] is what
    [getCudaDeviceNumber()] returns. *)
Definition readCudaDevices (num : Z) (d : CZDialog) : CZDialog :=
  fold_left readCudaDevice (seqZ 0 num) d.

(** [CZDialog::freeCudaDevices] (245-252): one turn of the loop for each
    entry of the list. *)
Fixpoint free_loop (l : list Z) (live : list Z) : list Z :=
  match l with
  | [] => live
  | info :: r => free_loop r (filter (fun i => i <> info) live)
  end.

Definition freeCudaDevices (d : CZDialog) : CZDialog :=
  Dialog [] (free_loop (deviceList d) (containers d)) (measured d)
    (comboDevice d) (shown d).

(** [CZDialog::setupDeviceList] (265-271). *)
Definition setupDeviceList (d : CZDialog) : CZDialog :=
  Dialog (deviceList d) (containers d) (measured d)
    (length (deviceList d), if deviceList d is [] then (-1)%Z else 0%Z) (shown d).

(** [CZDialog::setupDeviceInfo] (320-326). *)
Definition setupDeviceInfo (dev : Z) (d : CZDialog) : option CZDialog :=
  i ← at_index (deviceList d) dev;
  Some (Dialog (deviceList d) (containers d) (measured d) (comboDevice d) (Some i)).

(** The constructor of the dialog, lines 187-189. *)
Definition CZDialog_new (num : Z) : option CZDialog :=
  let d := setupDeviceList (readCudaDevices num CZDialog_start) in
  setupDeviceInfo (snd (comboDevice d)) d.

End Dialog.

(** ** The watchdog line of the three reports (czdialog.cpp, lines 346-349, 587, 743) *)

Inductive watchdog_text := Unknown | Yes | No.

(** [setupCoreTab] (346-349). *)
Definition setupCoreTab_watchdog (watchdogEnabled : Z) : watchdog_text :=
  if (watchdogEnabled =? -1)%Z then Unknown
  else if (watchdogEnabled =? 0)%Z then No else Yes.

(** [slotExportToText] (587). *)
Definition slotExportToText_watchdog (watchdogEnabled : Z) : watchdog_text :=
  if (watchdogEnabled =? 0)%Z then No else Yes.

(** [slotExportToHTML] (743). *)
Definition slotExportToHTML_watchdog (watchdogEnabled : Z) : watchdog_text :=
  if (watchdogEnabled =? 0)%Z then No else Yes.

(** * Proofs *)

Set Warnings "-clear-no-such-hyp".

Ltac destruct_match_in H :=
  match type of H with
  | context [match ?x with _ => _ end] =>
      let E := fresh "E" in destruct x eqn:E; simpl in H; try discriminate H
  end.

(** Case analysis on a step: one goal per statement of the program. *)
Ltac step_inv H :=
  match type of H with
  | exec ?l ?s = Some ?s' =>
    destruct s as [ab tr dr ix mx qr ql qs qf w cs lg];
    destruct l as [[|?n] ?pick|?t]; simpl in H;
    [ unfold exec_worker in H; simpl in H
    | let c := fresh "c" in let Hc := fresh "Hc" in
      destruct (cs !! n) as [c|] eqn:Hc; simpl in H;
      [destruct c as [sc cu p]; unfold exec_client in H; simpl in H|discriminate H]
    | ];
    unfold resume, acquire, ret, goto, wake_one, release in H; simpl in H;
    repeat destruct_match_in H;
    try (injection H as <-)
  end.

Ltac other_client Hl :=
  apply list_lookup_insert_Some in Hl;
  destruct Hl as [(-> & <- & _) | (? & Hl)].

Ltac fin :=
  simpl in *; try discriminate; try done;
  repeat match goal with
    | H : ?a = ?a -> _ |- _ => specialize (H eq_refl)
    | H : ?P -> _, H' : ?P |- _ =>
        match type of P with Prop => specialize (H H') end
    end;
  try congruence; try done.

Lemma reachable_trans s0 s1 s2 :
  reachable s0 s1 -> reachable s1 s2 -> reachable s0 s2.
Proof. intros H1 H2. induction H2; [done|]. eapply reach_step; eauto. Qed.

Lemma run_reachable ls : forall s0 s, run ls s0 = Some s -> reachable s0 s.
Proof.
  induction ls as [|l ls IH]; simpl; intros s0 s H.
  - injection H as <-. constructor.
  - destruct (exec l s0) as [s1|] eqn:E; simpl in H; [|discriminate].
    eapply reachable_trans; [|by apply IH].
    eapply reach_step; [constructor|done].
Qed.

Lemma reachable_ns_reachable s0 s : reachable_ns s0 s -> reachable s0 s.
Proof. induction 1; [constructor|]. eapply reach_step; eauto. Qed.

Lemma reachable_ns_trans s0 s1 s2 :
  reachable_ns s0 s1 -> reachable_ns s1 s2 -> reachable_ns s0 s2.
Proof. intros H1 H2. induction H2; [done|]. eapply reach_ns_step; eauto. Qed.

Lemma run_reachable_ns ls : forall s0 s,
  forallb (fun l => negb (spurious l)) ls = true ->
  run ls s0 = Some s -> reachable_ns s0 s.
Proof.
  induction ls as [|l ls IH]; simpl; intros s0 s Hns H.
  - injection H as <-. constructor.
  - destruct (exec l s0) as [s1|] eqn:E; simpl in H; [|discriminate].
    apply andb_prop in Hns as [Hl Hns].
    eapply reachable_ns_trans; [|by apply IH].
    destruct l; [|discriminate]. eapply reach_ns_step; [constructor|done].
Qed.

(** An invariant of the steps holds in every reachable state. *)
Lemma reachable_inv (P : state -> Prop) s0 :
  P s0 -> (forall l s s', P s -> exec l s = Some s' -> P s') ->
  forall s, reachable s0 s -> P s.
Proof. intros H0 Hs s Hr. induction Hr; eauto. Qed.

Lemma init_clients_idle started scripts n c :
  clients (init started scripts) !! n = Some c -> pc c = C_idle /\ cur c = None.
Proof.
  simpl. rewrite list_lookup_fmap. destruct (scripts !! n); simpl; [|done].
  by intros [= <-].
Qed.

(** Waking the head of a wait condition. *)
Lemma wake_one_head (q : list tid) : wake_one 0 q = Some (drop 1 q).
Proof. destruct q; [done|]. unfold wake_one. by rewrite bool_decide_true by (simpl; lia). Qed.

Lemma parked_nil t : parked t [] = false.
Proof. unfold parked. apply bool_decide_false, not_elem_of_nil. Qed.

Lemma parked_head t q : parked t (t :: q) = true.
Proof. unfold parked. apply bool_decide_true. left. Qed.

Lemma entry_free k : holds_c (entry k) = false.
Proof. by destruct k. Qed.

Lemma pass_inv_step l s s' : pass_inv s -> exec l s = Some s' -> pass_inv s'.
Proof.
  unfold pass_inv. intros Hi H. revert Hi.
  step_inv H; simpl; intros; lia.
Qed.

Lemma pass_inv_init started scripts : pass_inv (init started scripts).
Proof. unfold pass_inv. by destruct started. Qed.

Lemma sync_inv_step l s s' : sync_inv s -> exec l s = Some s' -> sync_inv s'.
Proof.
  intros Hi H. revert Hi.
  step_inv H; unfold sync_inv, mutex_inv, guard_inv; simpl; intros [[Hw Hm] Hg].
  all: try (pose proof (Hm _ _ Hc) as Hm0; pose proof (Hg _ _ Hc) as (Hg1 & Hg2 & Hg3);
            simpl in Hm0, Hg1, Hg2, Hg3).
  all: (split; [split|]);
    [ intros Hx; fin
    | intros m c0 Hl Hp; try other_client Hl;
      try (pose proof (Hm _ _ Hl Hp)); simpl in Hp; try rewrite entry_free in Hp; fin
    | intros m c0 Hl; try other_client Hl;
      try (pose proof (Hm _ _ Hl) as Hx; pose proof (Hg _ _ Hl) as (Hy1 & Hy2 & Hy3));
      repeat split; intros Ep; try rewrite Ep in *; try (by destruct c); fin ].
Qed.

Lemma sync_inv_init started scripts : sync_inv (init started scripts).
Proof.
  split; [split|].
  - by destruct started.
  - intros n c Hc. apply init_clients_idle in Hc as [-> _]. done.
  - intros n c Hc. apply init_clients_idle in Hc as [-> _]. done.
Qed.
Lemma count_split n f l :
  (forall e, is_request n e = true -> f e = false) ->
  count f l = since (is_request n) f l + count f (before n l).
Proof.
  intros Hf. induction l as [|e r IH]; simpl; [done|].
  destruct (is_request n e) eqn:E.
  - rewrite (Hf e E). done.
  - rewrite IH. lia.
Qed.

Lemma begin_not_request n e : is_request n e = true -> is_begin e = false.
Proof. by destruct e. Qed.
Lemma end_not_request n e : is_request n e = true -> is_end e = false.
Proof. by destruct e. Qed.

Lemma wait_inv_step l s s' :
  pass_inv s -> wait_inv s -> exec l s = Some s' -> wait_inv s'.
Proof.
  intros Hp Hi H. revert Hp Hi.
  step_inv H; unfold wait_inv, pass_inv; simpl; intros (Pb & Pi & Pd) Hi Ha;
    try discriminate Ha; destruct (Hi Ha) as (F & K & L1 & L2); clear Hi.
  all: try (pose proof (K _ _ Hc) as (K1 & K2 & K3); simpl in K1, K2, K3).
  all: try discriminate K1.
  all: (split; [|split; [|split]]);
    [ fin
    | intros m c0 Hl; try other_client Hl;
      try (pose proof (K _ _ Hl) as (Y1 & Y2 & Y3)); simpl;
      try rewrite bool_decide_false by done;
      try rewrite bool_decide_true by done
    | simpl; try split; try done
    | simpl; try split; try done ].
  all: try (repeat split; intros; fin; try tauto; try lia; try (destruct c; fin)).
  - rewrite (count_split m is_begin), (count_split m is_end) in Pb
      by (apply begin_not_request || apply end_not_request).
    rewrite <- F in Pb. lia.
  - apply K2.
Qed.

Lemma wait_inv_init started scripts : wait_inv (init started scripts).
Proof.
  intros _. split; [by destruct started|]. split; [|done].
  intros n c Hc. apply init_clients_idle in Hc as [-> _]. done.
Qed.

(** The three invariants together. *)
Lemma invariants started scripts s :
  reachable (init started scripts) s -> pass_inv s /\ sync_inv s /\ wait_inv s.
Proof.
  apply (reachable_inv (fun s => pass_inv s /\ sync_inv s /\ wait_inv s)).
  - split; [apply pass_inv_init|]. split; [apply sync_inv_init|apply wait_inv_init].
  - intros l s1 s2 (Hp & Hs & Hw) H. split; [by eapply pass_inv_step|].
    split; [by eapply sync_inv_step|by eapply wait_inv_step].
Qed.

Lemma returns_after_end_split l1 : forall n l2 l,
  returns_after_end l -> l = l1 ++ EvReturn n Wait :: l2 ->
  1 <= since (is_request n) is_end l2.
Proof.
  induction l1 as [|e l1 IH]; intros n l2 l H ->; simpl in H.
  - apply H.
  - destruct H as [_ H]. by eapply IH.
Qed.

Lemma returns_after_begin_split l1 : forall n l2 l,
  returns_after_begin l -> l = l1 ++ EvReturn n Wait :: l2 ->
  count is_begin (before n l2) = count is_end (before n l2) ->
  1 <= since (is_request n) is_begin l2.
Proof.
  induction l1 as [|e l1 IH]; intros n l2 l H ->; simpl in H.
  - apply H.
  - destruct H as [_ H]. by eapply IH.
Qed.


(** ** Further invariants *)

Lemma reachable_ns_inv (P : state -> Prop) s0 :
  P s0 -> (forall l s s', spurious l = false -> P s -> exec l s = Some s' -> P s') ->
  forall s, reachable_ns s0 s -> P s.
Proof. intros H0 Hs s Hr. induction Hr; [done|]. eapply (Hs (Step t pick)); eauto. Qed.

Lemma device_inv_step l s s' : device_inv s -> exec l s = Some s' -> device_inv s'.
Proof.
  intros Hi H. revert Hi.
  step_inv H; unfold device_inv; simpl; intros [Hc1 Hc2];
    (split; [lia|repeat split; try done; lia]).
Qed.

Lemma ready_inv_step l s s' : ready_inv s -> exec l s = Some s' -> ready_inv s'.
Proof.
  intros Hi H. revert Hi.
  step_inv H; unfold ready_inv; simpl; intros [He Hr]; split; intros; fin.
Qed.

Lemma index_inv_step scripts l s s' :
  index_inv scripts s -> exec l s = Some s' -> index_inv scripts s'.
Proof.
  intros Hi H. revert Hi.
  step_inv H; unfold index_inv; simpl; intros (Hx & Hk & Ht & He & Hf & Hn).
  all: try (pose proof (Hk _ _ Hc) as Hk0; simpl in Hk0).
  all: try (pose proof (Ht _ _ Hc) as Ht0; simpl in Ht0).
  all: (split; [|split; [|split; [|split; [|split]]]]);
    [ try done
    | try done; intros m c0 Hl; try other_client Hl; simpl; try (by eapply Hk)
    | try done; intros m c0 Hl; try other_client Hl; simpl; try (by eapply Ht);
      try done
    | try done
    | try done
    | try (simpl; lia) ].
  all: try exact Hk0.
  all: try (intros k [Hk1|Hk1]; try discriminate Hk1; apply Hk0; simpl;
            first [by left | by right | by (injection Hk1 as <-; left)
                  | by (right; right)]).
  - intros _. destruct Hx as [->|Hx]; [done|exact Hx].
  - constructor; [|done]. by apply He.
  - intros k [[= <-]|Hk1]; apply Hk0; simpl; auto.
  - destruct c as [i| |]; simpl; intros; try done; by eexists.
  - destruct (Ht0 eq_refl) as (k & Hcu & Hp). right.
    destruct (Hk0 k (or_introl Hcu)) as (sc0 & Hs & Hin). by exists sc0, k.
  - intros _. destruct (Ht0 eq_refl) as (k & Hcu & Hp).
    destruct (Hk0 k (or_introl Hcu)) as (sc0 & Hs & Hin). by exists sc0, k.
Qed.

Lemma request_inv_step l s s' :
  spurious l = false -> request_inv s -> exec l s = Some s' -> request_inv s'.
Proof.
  intros Hs Hi H. revert Hs Hi.
  step_inv H; unfold request_inv, owes_pass; simpl; intros Hs (Hb & Hq & Ha);
    try discriminate Hs.
  all: try (pose proof (Ha _ _ Hc) as Ha0; simpl in Ha0).
  all: try (specialize (Ha0 eq_refl); subst ab).
  all: destruct Hq as [Hq|[Hq Hq']]; simplify_eq/=.
  all: try match goal with
       | E : bool_decide (?p < 1) = true |- _ =>
           apply bool_decide_eq_true in E; destruct p; [simpl|lia]
       end.
  all: (split; [|split]);
    [ rewrite ?parked_nil, ?parked_head in *; try (destruct ab); simpl in *;
      try lia
    | try (by left); try (by right)
    | intros m c0 Hl Hp; try other_client Hl; simpl in *; try done;
      try (by eapply Ha); try (by destruct c) ].
  destruct w; simpl in *; lia.
Qed.

Lemma device_inv_init started scripts : device_inv (init started scripts).
Proof. by destruct started. Qed.

Lemma ready_inv_init started scripts : ready_inv (init started scripts).
Proof. by destruct started. Qed.

Lemma request_inv_init started scripts : request_inv (init started scripts).
Proof.
  split; [by destruct started|]. split; [by left|].
  intros n c Hc. by apply init_clients_idle in Hc as [-> _].
Qed.

Lemma index_inv_init started scripts : index_inv scripts (init started scripts).
Proof.
  split; [by left|]. split; [|split; [|split; [by destruct started|split; [constructor|by destruct started]]]].
  - intros n c Hc k Hk. simpl in Hc. rewrite list_lookup_fmap in Hc.
    destruct (scripts !! n) as [sc|] eqn:E; simpl in Hc; [|done].
    injection Hc as <-. simpl in Hk. destruct Hk as [Hk|Hk]; [done|].
    exists sc. split; [|done]. apply list_elem_of_In. by eapply list_elem_of_lookup_2.
  - intros n c Hc. by apply init_clients_idle in Hc as [-> _].
Qed.

(** The three invariants together. *)
Lemma more_invariants started scripts s :
  reachable (init started scripts) s ->
  device_inv s /\ ready_inv s /\ index_inv scripts s.
Proof.
  apply (reachable_inv (fun s => device_inv s /\ ready_inv s /\ index_inv scripts s)).
  - split; [apply device_inv_init|]. split; [apply ready_inv_init|apply index_inv_init].
  - intros l s1 s2 (Hd & Hr & Hx) H. split; [by eapply device_inv_step|].
    split; [by eapply ready_inv_step|by eapply index_inv_step].
Qed.


(** ** Who holds the mutex *)

Lemma some_client_insert P cs n c c' :
  cs !! n = Some c -> (P (pc c) = true -> P (pc c') = true) ->
  some_client P cs -> some_client P (<[n := c']> cs).
Proof.
  intros Hc Hp (m & c0 & Hm & H0). destruct (decide (m = n)) as [->|Hne].
  - exists n, c'. split; [apply list_lookup_insert_eq; by eapply lookup_lt_Some|].
    apply Hp. congruence.
  - exists m, c0. split; [|done]. by rewrite list_lookup_insert_ne.
Qed.

Lemma some_client_here P cs n c c' :
  cs !! n = Some c -> P (pc c') = true -> some_client P (<[n := c']> cs).
Proof.
  intros Hc Hp. exists n, c'. split; [|done].
  apply list_lookup_insert_eq. by eapply lookup_lt_Some.
Qed.

Lemma holder_inv_step l s s' : holder_inv s -> exec l s = Some s' -> holder_inv s'.
Proof.
  intros Hi H. revert Hi.
  step_inv H; unfold holder_inv; simpl; intros [Hw Hm].
  all: (split; [intros; fin|]).
  all: try (intros m [= <-]).
  all: try done.
  all: try (eexists; split;
            [apply list_lookup_insert_eq; by eapply lookup_lt_Some|done]).
  all: intros m Hmx; destruct (Hm m Hmx) as (c0 & H0 & Hh);
    (destruct (decide (m = n)) as [->|Hne];
     [ rewrite Hc in H0; injection H0 as <-;
       first [ discriminate Hh
             | eexists; split;
               [apply list_lookup_insert_eq; by eapply lookup_lt_Some|done] ]
     | exists c0; split; [by rewrite list_lookup_insert_ne|done] ]).
Qed.

Lemma unpark_worker_only t : unpark t [Worker] = [] \/ unpark t [Worker] = [Worker].
Proof.
  unfold unpark. rewrite filter_cons, filter_nil.
  destruct (decide (Worker <> t)); [by right|by left].
Qed.

Lemma newLoop_inv_step l s s' : newLoop_inv s -> exec l s = Some s' -> newLoop_inv s'.
Proof.
  intros Hi H. revert Hi.
  step_inv H; unfold newLoop_inv; simpl; intros [Hq|[Hq Hq']]; simplify_eq/=.
  all: try (by left); try (by right).
  all: try match goal with
       | E : bool_decide (?p < 1) = true |- _ =>
           apply bool_decide_eq_true in E; destruct p; [simpl|lia]
       end.
  all: try (by left); try (by right).
  destruct (unpark_worker_only t) as [->| ->]; [by left|by right].
Qed.

Lemma ready_owner_inv_step l s s' :
  ready_owner_inv s -> exec l s = Some s' -> ready_owner_inv s'.
Proof.
  intros Hi H. revert Hi.
  step_inv H; unfold ready_owner_inv; simpl; intros Hi Ha Hd;
    try discriminate; subst.
  all: try (by left).
  all: try exact (Hi eq_refl eq_refl).
  all: try (destruct (Hi eq_refl eq_refl) as [Hl|Hs]; [discriminate Hl|by right]).
  all: try (right; by eapply some_client_here).
  all: destruct (Hi eq_refl eq_refl) as [Hl|Hs];
    [ first [by left | discriminate Hl]
    | right; (eapply some_client_insert; [exact Hc| |exact Hs]); simpl; done ].
Qed.

Lemma flag_inv_step l s s' : flag_inv s -> exec l s = Some s' -> flag_inv s'.
Proof.
  intros Hi H. revert Hi.
  step_inv H; unfold flag_inv; simpl; intros Hi Ht;
    try discriminate; subst.
  all: try (left; lia).
  all: try exact (Hi eq_refl).
  all: try (destruct (Hi eq_refl) as [Hl|Hs]; [simpl in Hl; lia|by right]).
  all: try (right; by eapply some_client_here).
  all: destruct (Hi eq_refl) as [Hl|Hs];
    [ left; simpl in *; lia
    | right; (eapply some_client_insert; [exact Hc| |exact Hs]); simpl; done ].
Qed.

Lemma holder_inv_init started scripts : holder_inv (init started scripts).
Proof. split; [done|]. intros m [=]. Qed.

Lemma newLoop_inv_init started scripts : newLoop_inv (init started scripts).
Proof. by left. Qed.

Lemma ready_owner_inv_init started scripts : ready_owner_inv (init started scripts).
Proof. intros _ [=]. Qed.

Lemma flag_inv_init started scripts : flag_inv (init started scripts).
Proof. intros [=]. Qed.

(** The four invariants together. *)
Lemma owner_invariants started scripts s :
  reachable (init started scripts) s ->
  holder_inv s /\ newLoop_inv s /\ ready_owner_inv s /\ flag_inv s.
Proof.
  apply (reachable_inv
           (fun s => holder_inv s /\ newLoop_inv s /\ ready_owner_inv s /\ flag_inv s)).
  - split; [apply holder_inv_init|]. split; [apply newLoop_inv_init|].
    split; [apply ready_owner_inv_init|apply flag_inv_init].
  - intros l s1 s2 (Hh & Hq & Hr & Hf) H. split; [by eapply holder_inv_step|].
    split; [by eapply newLoop_inv_step|].
    split; [by eapply ready_owner_inv_step|by eapply flag_inv_step].
Qed.

(** The holder of the mutex can take a step, which releases the mutex or
    brings it nearer to releasing it; the step is no step of
    [updateInfo], sets no [abort] and moves no idle caller. *)
Lemma holder_step s t :
  holder_inv s -> ready_inv s -> abort s = false -> no_destructor s ->
  mutex s = Some t ->
  exists l s',
    exec l s = Some s' /\ abort s' = false /\ no_destructor s' /\
    (forall n c, clients s !! n = Some c -> pc c = C_idle ->
                 clients s' !! n = Some c) /\
    count is_invoke (log s') = count is_invoke (log s) /\
    count is_done (log s') = count is_done (log s) /\
    rank s' < rank s.
Proof.
  intros [Hw Hm] [He _] Ha Hn Hx.
  destruct s as [ab tr dr ix mx qr ql qs qf w cs lg]. simpl in *. subst.
  destruct t as [|m].
  - specialize (Hw eq_refl).
    destruct w; try discriminate Hw; try (by specialize (He eq_refl)).
    all: exists (Step Worker 0); eexists; (split; [reflexivity|]).
    all: repeat split; try done; unfold rank; simpl; lia.
  - destruct (Hm m eq_refl) as ([sc cu p] & Hc & Hh). simpl in Hh.
    pose proof (Hn m _ Hc) as Hd. simpl in Hd.
    assert (Hlt : m < length cs) by (by eapply lookup_lt_Some).
    destruct p; try discriminate Hh; try discriminate Hd.
    all: exists (Step (Client m) 0); simpl; rewrite Hc; simpl;
      unfold exec_client, ret; simpl; rewrite ?wake_one_head; simpl.
    2: destruct w.
    all: try match goal with
         | |- context [if ?b then _ else _] => destruct b
         | |- context [match ?k with Some _ => _ | None => _ end] =>
             destruct k as [[| |]|]
         end.
    all: eexists; (split; [reflexivity|]).
    all: unfold rank, no_destructor in *; simpl in *;
      rewrite ?Hc, ?list_lookup_insert_eq by done; simpl.
    all: (split; [done|]); (split; [|split; [|split; [|split]]]);
      [ intros m' d Hl; other_client Hl; [done|by eapply Hn]
      | intros n c Hcn Hp; destruct (decide (n = m)) as [->|Hne];
        [ rewrite Hc in Hcn; by injection Hcn as <-
        | by rewrite list_lookup_insert_ne ]
      | done
      | done
      | lia ].
Qed.

(** From a state of an object that is not being torn down, the holder of
    the mutex releases it by steps of its own, none of which is a step of
    [updateInfo]. *)
Lemma release_mutex started scripts k : forall s,
  rank s <= k ->
  reachable (init started scripts) s -> abort s = false -> no_destructor s ->
  exists ls s1,
    run ls s = Some s1 /\ mutex s1 = None /\
    reachable (init started scripts) s1 /\ abort s1 = false /\ no_destructor s1 /\
    (forall n c, clients s !! n = Some c -> pc c = C_idle ->
                 clients s1 !! n = Some c) /\
    count is_invoke (log s1) = count is_invoke (log s) /\
    count is_done (log s1) = count is_done (log s).
Proof.
  induction k as [|k IH]; intros s Hk Hr Ha Hn.
  all: destruct (mutex s) as [t|] eqn:Hx; [|by exists [], s].
  all: pose proof (owner_invariants _ _ _ Hr) as (Hh & _).
  all: pose proof (more_invariants _ _ _ Hr) as (_ & Hy & _).
  all: destruct (holder_step s t Hh Hy Ha Hn Hx)
         as (l & s' & He & Ha' & Hn' & Hi & Hc1 & Hc2 & Hlt).
  - lia.
  - destruct (IH s' ltac:(lia) ltac:(by eapply reach_step) Ha' Hn')
      as (ls & s1 & Hrun & Hm1 & Hr1 & Ha1 & Hn1 & Hi1 & Hd1 & Hd2).
    exists (l :: ls), s1. split; [simpl; by rewrite He|].
    repeat split; try done; try congruence.
    intros n c Hc Hp. apply Hi1; [by apply Hi|done].
Qed.

(** ** Exploration is exhaustive *)

Lemma exec_client_pick n pick c s s' :
  exec_client n pick c s = Some s' ->
  exists pick', pick' ∈ picks s /\ exec_client n pick' c s = Some s'.
Proof.
  unfold picks. intros H.
  assert (Hk : forall q k, length q <= length (readyForWork s) + length (newLoop s) ->
            wake_one pick q = Some k ->
            exists pick', pick' ∈ seq 0 (S (length (readyForWork s) + length (newLoop s)))
                          /\ wake_one pick' q = Some k).
  { intros q k Hq Hw. destruct q as [|t q].
    - exists 0. split; [|done]. apply elem_of_seq. lia.
    - exists pick. split; [|done]. unfold wake_one in Hw.
      case_bool_decide; [|done]. apply elem_of_seq. simpl in *. lia. }
  assert (H0 : 0 ∈ seq 0 (S (length (readyForWork s) + length (newLoop s))))
    by (apply elem_of_seq; lia).
  unfold exec_client in *. destruct (pc c); try (exists 0; split; [done|exact H]).
  - destruct (wake_one pick (newLoop s)) as [k|] eqn:E; [|done].
    destruct (Hk (newLoop s) k ltac:(lia) E) as (p' & ? & E'). exists p'. by rewrite E'.
  - destruct (wake_one pick (readyForWork s)) as [k|] eqn:E; [|done].
    destruct (Hk (readyForWork s) k ltac:(lia) E) as (p' & ? & E'). exists p'. by rewrite E'.
  - destruct (wake_one pick (newLoop s)) as [k|] eqn:E; [|done].
    destruct (Hk (newLoop s) k ltac:(lia) E) as (p' & ? & E'). exists p'. by rewrite E'.
Qed.

Lemma succs_complete t pick s s' :
  exec (Step t pick) s = Some s' -> s' ∈ succs s.
Proof.
  intros H. unfold succs. apply list_elem_of_omap.
  destruct t as [|n].
  - exists (Step Worker 0). split; [|done]. unfold labels. left.
  - simpl in H. destruct (clients s !! n) as [c|] eqn:Hc; [|done]. simpl in H.
    destruct (exec_client_pick _ _ _ _ _ H) as (p' & Hp & H').
    exists (Step (Client n) p'). split; [|by simpl; rewrite Hc].
    unfold labels. right. apply list_elem_of_In, in_flat_map. exists n. split.
    + apply in_seq. apply lookup_lt_Some in Hc. lia.
    + apply in_map, list_elem_of_In. done.
Qed.

Lemma succs_sound s s' :
  s' ∈ succs s -> exists t pick, exec (Step t pick) s = Some s'.
Proof.
  unfold succs. intros (l & Hl & H)%list_elem_of_omap.
  unfold labels in Hl. apply elem_of_cons in Hl as [->|Hl]; [by eauto|].
  apply list_elem_of_In, in_flat_map in Hl as (n & _ & Hl).
  apply in_map_iff in Hl as (p & <- & _). eauto.
Qed.

Lemma stuckb_stuck s : stuckb s = true <-> stuck s.
Proof.
  unfold stuckb, stuck. split.
  - intros H t pick. destruct (exec (Step t pick) s) as [s'|] eqn:E; [|done].
    apply succs_complete in E. destruct (succs s); [|done]. by apply elem_of_nil in E.
  - intros H. destruct (succs s) as [|s' r] eqn:E; [done|].
    destruct (succs_sound s s') as (t & pick & H'); [rewrite E; left|].
    by rewrite H in H'.
Qed.

Lemma closed_reachable L s0 :
  closed L = true -> s0 ∈ L -> forall s, reachable_ns s0 s -> s ∈ L.
Proof.
  intros Hc H0 s Hr. induction Hr as [|s t pick s' _ IH H]; [done|].
  unfold closed in Hc. rewrite forallb_forall in Hc.
  specialize (Hc s (proj1 (list_elem_of_In _ _) IH)). rewrite forallb_forall in Hc.
  apply succs_complete in H.
  specialize (Hc s' (proj1 (list_elem_of_In _ _) H)).
  by apply bool_decide_eq_true in Hc.
Qed.

Lemma reach_two_requests_closed : closed reach_two_requests = true.
Proof. vm_compute. reflexivity. Qed.

Lemma reach_two_requests_ok : Forall two_requests_spec reach_two_requests.
Proof. apply (proj1 (bool_decide_eq_true _)). vm_compute. reflexivity. Qed.

(** ** C8: one benchmark operation at a time *)

(** C8. In every reachable state at most one benchmark operation of the
    worker is in flight: the calls of [updateInfo] exceed its returns by at
    most one, and by one exactly while [run] is inside the call; when the
    worker is about to call [updateInfo] every earlier call has returned
    and the worker has cleared [testRunning] after each of them. *)
Theorem one_pass_at_a_time started scripts s :
  reachable (init started scripts) s ->
  in_flight s <= 1 /\
  count is_done (log s) <= count is_invoke (log s) /\
  (in_flight s = 1 <-> wk s = W_updating) /\
  (wk s = W_update ->
     count is_done (log s) = count is_invoke (log s) /\
     count is_end (log s) = count is_invoke (log s)).
Proof.
  intros Hr. apply invariants in Hr as ((Pb & Pi & Pd) & _).
  unfold in_flight. rewrite Pi, Pd.
  destruct (wk s); simpl in *; repeat split; intros; try discriminate; lia.
Qed.

Lemma one_pass_at_a_time_witness : in_flight mid_pass = 1 /\ wk mid_pass = W_updating.
Proof.
  assert (Hr : reachable (init true [[Wait]]) mid_pass)
    by (apply (run_reachable sched_first_wait); reflexivity).
  destruct (one_pass_at_a_time true [[Wait]] mid_pass Hr) as (_ & _ & [_ H] & _).
  split; [apply H|]; reflexivity.
Defined.

(** ** C6: which waits are guarded *)

(** C6 (as amended). The three waits of the callers are guarded: a caller
    is past the became-ready loop only with [deviceReady] set, past the
    pass-began loop only with [testRunning] set, past the pass-ended loop
    only with [testRunning] clear, each time holding the mutex, and a
    caller leaving a wait goes back to the test of its flag.  This holds
    with spurious wake-ups. *)
Theorem caller_waits_are_guarded started scripts s n c :
  reachable (init started scripts) s -> clients s !! n = Some c ->
  (pc c = T_wake_loop -> deviceReady s = true /\ mutex s = Some (Client n)) /\
  (pc c = P_seen_start -> testRunning s = true /\ mutex s = Some (Client n)) /\
  (pc c = P_unlock -> testRunning s = false /\ mutex s = Some (Client n)) /\
  (forall pick s' c',
     exec (Step (Client n) pick) s = Some s' -> clients s' !! n = Some c' ->
     (pc c = T_blocked -> pc c' = T_check_ready) /\
     (pc c = P_blocked_start -> pc c' = P_check_start) /\
     (pc c = P_blocked_finish -> pc c' = P_check_finish)).
Proof.
  intros Hr Hc. apply invariants in Hr as (_ & ([_ Hm] & Hg) & _).
  destruct (Hg n c Hc) as (G1 & G2 & G3). specialize (Hm n c Hc).
  split; [intros E; rewrite E in Hm; auto|].
  split; [intros E; rewrite E in Hm; auto|].
  split; [intros E; rewrite E in Hm; auto|].
  intros pick s' c' H Hc'. simpl in H. rewrite Hc in H. simpl in H.
  unfold exec_client, resume, acquire, goto in H.
  repeat split; intros E; rewrite E in H;
    repeat destruct_match_in H; injection H as <-; simpl in Hc';
    apply list_lookup_insert_Some in Hc' as [(_ & <- & _)|[? _]]; done.
Qed.

Lemma caller_waits_are_guarded_witness :
  testRunning caller_seen_start = true /\ mutex caller_seen_start = Some (Client 0).
Proof.
  assert (Hr : reachable (init true [[Wait]]) caller_seen_start)
    by (apply (run_reachable sched_seen_start); reflexivity).
  destruct (caller_waits_are_guarded true [[Wait]] caller_seen_start 0
              (Client_ [] (Some Wait) P_seen_start) Hr eq_refl) as (_ & H & _).
  apply H. reflexivity.
Defined.

(** C6, counterexample.  The worker's wait for a new pass is not guarded
    by any flag.  With no caller at all and [abort] clear, one spurious
    wake-up takes [run] past [newLoop.wait] and into a benchmark pass; and
    a wake-up sent while the worker is not parked is missed: in the second
    state [abort] is set, yet the worker is parked on [newLoop] and no
    thread can move. *)
Lemma worker_wait_is_unguarded :
  (run sched_spurious (init true []) = Some after_spurious /\
   wk after_spurious = W_updating /\ abort after_spurious = false /\
   count is_request_any (log after_spurious) = 0 /\
   count is_invoke (log after_spurious) = 1) /\
  (reachable_ns (init true [[Test 5; Destroy]]) after_teardown_hang /\
   stuck after_teardown_hang /\ abort after_teardown_hang = true /\
   wk after_teardown_hang = W_blocked /\
   parked Worker (newLoop after_teardown_hang) = true).
Proof.
  split; [vm_compute; repeat split|].
  split; [apply (run_reachable_ns sched_teardown_hang); vm_compute; reflexivity|].
  split; [|vm_compute; repeat split].
  intros [|[|n]] pick; reflexivity.
Qed.

(** ** C1, C2: what [waitPerformance] has seen when it returns *)




(** C2 (as amended). While the object is not being destroyed, a call of
    [waitPerformance] whose request was made with no pass in flight (as
    many [EvBegin] as [EvEnd] before the request) returns only after a pass
    that began after the request has ended. *)
Theorem wait_sees_pass_begun_after_request started scripts s l1 n l2 :
  reachable (init started scripts) s -> abort s = false ->
  log s = l1 ++ EvReturn n Wait :: l2 ->
  count is_begin (before n l2) = count is_end (before n l2) ->
  1 <= since (is_request n) is_begin l2 /\ 1 <= since (is_request n) is_end l2.
Proof.
  intros Hr Ha E Hb. apply invariants in Hr as (_ & _ & Hw).
  destruct (Hw Ha) as (_ & _ & L1 & L2). split.
  - by eapply returns_after_begin_split.
  - by eapply returns_after_end_split.
Qed.

Lemma wait_sees_pass_begun_after_request_witness :
  1 <= since (is_request 0) is_begin
         [EvEnd; EvDone; EvInvoke; EvBegin; EvRequest 0; EvCall 0 Wait;
          EvReady; EvPrepare].
Proof.
  assert (Hr : reachable (init true [[Wait]]) after_wait)
    by (apply (run_reachable sched_wait); vm_compute; reflexivity).
  apply (wait_sees_pass_begun_after_request true [[Wait]] after_wait [] 0 _
           Hr eq_refl eq_refl eq_refl).
Defined.

(** C2, counterexample.  In the same run the pass was in flight when
    [waitPerformance] made its request (one [EvBegin] more than [EvEnd]
    before it); the call has returned, no thread can move any more, and no
    pass has begun since the call was entered: the cycle it completed on is
    the one that was mid-flight, and no pass was scheduled after its
    request. *)
Lemma wait_completes_on_pass_in_flight :
  reachable_ns (init true [[Test 5; Wait]]) after_wait_mid_flight /\
  stuck after_wait_mid_flight /\
  In (EvReturn 0 Wait) (log after_wait_mid_flight) /\
  count is_begin (before 0 (log after_wait_mid_flight))
    = S (count is_end (before 0 (log after_wait_mid_flight))) /\
  since (is_call 0) is_begin (log after_wait_mid_flight) = 0.
Proof.
  split; [apply (run_reachable_ns sched_wait_mid_flight); vm_compute; reflexivity|].
  split.
  - intros [|[|n]] pick; reflexivity.
  - vm_compute. split; [by left|]. done.
Qed.

(** ** C3: two requests back to back *)




(** ** C4, C5: teardown *)

(** C4, the failing run.  The destructor is entered while the worker is
    inside [updateInfo].  The worker ends the pass and reads [abort] at
    line 140 before the destructor has set it; the destructor's
    [newLoop.wakeOne()] then finds nobody parked, the worker parks on
    [newLoop] and the destructor blocks in [wait()]: no thread can move,
    the thread has not terminated and [cleanDevice] has not run. *)
Theorem teardown_can_hang :
  reachable_ns (init true [[Test 5; Destroy]]) after_teardown_hang /\
  stuck after_teardown_hang /\
  (exists l1 l2, log after_teardown_hang
                 = l1 ++ EvCall 0 Destroy :: EvInvoke :: l2) /\
  abort after_teardown_hang = true /\
  wk after_teardown_hang = W_blocked /\
  parked Worker (newLoop after_teardown_hang) = true /\
  clients after_teardown_hang = [Client_ [] (Some Destroy) D_join] /\
  count is_clean (log after_teardown_hang) = 0.
Proof.
  split; [apply (run_reachable_ns sched_teardown_hang); vm_compute; reflexivity|].
  split; [apply stuckb_stuck; vm_compute; reflexivity|].
  split; [exists [EvAbort; EvEmit 5%Z; EvEnd; EvDone]; eexists; reflexivity|].
  vm_compute. done.
Qed.

(** C5, the failing run.  Caller 0 is inside [waitPerformance], parked on
    [testStart]; caller 1 runs the destructor.  The destructor sets and
    clears [testRunning] in one critical section, so the woken caller finds
    the flag clear and parks again.  The destructor returns, the worker has
    terminated, and caller 0 is still blocked. *)
Theorem teardown_leaves_waiter_blocked :
  reachable_ns (init true [[Wait]; [Destroy]]) after_waiter_left /\
  stuck after_waiter_left /\
  In (EvReturn 1 Destroy) (log after_waiter_left) /\
  wk after_waiter_left = W_off /\
  clients after_waiter_left !! 0 = Some (Client_ [] (Some Wait) P_blocked_start) /\
  parked (Client 0) (testStart after_waiter_left) = true.
Proof.
  split; [apply (run_reachable_ns sched_waiter_left); vm_compute; reflexivity|].
  split; [apply stuckb_stuck; vm_compute; reflexivity|].
  vm_compute. split; [by left|done].
Qed.

(** ** C7: [testPerformance] does not wait for the pass *)

Lemma start_only_if_off {A} (w : wloc) (a b : A) :
  w <> W_off -> match w with W_off => a | _ => b end = b.
Proof. by destruct w. Qed.

Lemma run_step l ls s s' : exec l s = Some s' -> run (l :: ls) s = run ls s'.
Proof. intros H. simpl. by rewrite H. Qed.

Lemma run_app ls1 ls2 s s1 :
  run ls1 s = Some s1 -> run (ls1 ++ ls2) s = run ls2 s1.
Proof.
  revert s. induction ls1 as [|l ls1 IH]; simpl; intros s H; [by injection H as ->|].
  destruct (exec l s); simpl in *; [by apply IH|done].
Qed.

Lemma run_dev_step cuda l ls sd sd' :
  exec_dev cuda l sd = Some sd' -> run_dev cuda (l :: ls) sd = run_dev cuda ls sd'.
Proof. intros H. simpl. by rewrite H. Qed.

(** One step on a state given by its fields. *)
Ltac norm :=
  cbv beta iota zeta delta
    [exec_dev dev_step
     W C exec exec_client exec_worker acquire resume release
     goto ret set_client requested_index entry
     set_abort set_testRunning set_deviceReady set_index set_mutex
     set_readyForWork set_newLoop set_testStart set_testFinish set_wk
     set_clients push init
     abort testRunning deviceReady index mutex readyForWork newLoop
     testStart testFinish wk clients log script cur pc
     mbind option_bind fmap option_fmap option_map].

(** Runs a schedule step by step on a symbolic state; [tac] rewrites what
    the hypotheses say about the state. *)
Ltac steps tac :=
  cbv beta iota delta [repeat app];
  repeat first
    [ erewrite run_step by (norm; tac; norm; reflexivity)
    | erewrite run_dev_step by (norm; tac; norm; reflexivity) ];
  reflexivity.

(** With the device ready and the mutex free the call is the caller's
    own seven steps, wherever [run] stands. *)
Lemma testPerformance_when_ready s n c i rest :
  clients s !! n = Some c -> pc c = C_idle -> script c = Test i :: rest ->
  mutex s = None -> deviceReady s = true -> wk s <> W_off ->
  exists s',
    run (repeat (C n) 7) s = Some s' /\
    clients s' = <[n := Client_ rest None C_idle]> (clients s) /\
    index s' = i /\ newLoop s' = drop 1 (newLoop s) /\
    wk s' = wk s /\ testRunning s' = testRunning s /\
    log s' = EvReturn n (Test i) :: EvRequest n :: EvCall n (Test i) :: log s.
Proof.
  intros Hc Hpc Hsc Hm Hd Hw.
  assert (Hn : n < length (clients s)) by (by eapply lookup_lt_Some).
  destruct s as [ab tr dr ix mx qr ql qs qf w cs lg]; destruct c as [sc cu p];
    simpl in Hc, Hpc, Hsc, Hm, Hn, Hd, Hw; subst.
  eexists. split.
  - steps ltac:(rewrite ?Hc;
      rewrite ?list_lookup_insert_eq by (rewrite ?length_insert; exact Hn);
      rewrite ?list_insert_insert_eq;
      rewrite ?wake_one_head, ?parked_nil;
      rewrite ?(start_only_if_off w) by exact Hw).
  - repeat split.
Qed.

(** Before the device is ready the caller waits on [readyForWork] until
    [run], started by the call if need be, has signalled it: [k] steps of
    the worker, up to its [newLoop.wait]. *)
Lemma testPerformance_when_not_ready s n c i rest k :
  clients s !! n = Some c -> pc c = C_idle -> script c = Test i :: rest ->
  mutex s = None -> deviceReady s = false ->
  ((wk s = W_off \/ wk s = W_prepare) /\ k = 5 \/ wk s = W_lock_ready /\ k = 4) ->
  exists s',
    run (repeat (C n) 5 ++ repeat W k ++ repeat (C n) 4) s = Some s' /\
    clients s' = <[n := Client_ rest None C_idle]> (clients s) /\
    index s' = i /\ newLoop s' = newLoop s /\
    wk s' = W_blocked /\ testRunning s' = testRunning s /\
    log s' = EvReturn n (Test i) :: EvRequest n :: EvReady
               :: (if k =? 5 then [EvPrepare] else [])
               ++ EvCall n (Test i) :: log s.
Proof.
  intros Hc Hpc Hsc Hm Hd Hw.
  assert (Hn : n < length (clients s)) by (by eapply lookup_lt_Some).
  destruct s as [ab tr dr ix mx qr ql qs qf w cs lg]; destruct c as [sc cu p];
    simpl in Hc, Hpc, Hsc, Hm, Hn, Hd, Hw; subst.
  destruct Hw as [[[-> | ->] ->]|[-> ->]].
  all: eexists; (split;
    [ steps ltac:(rewrite ?Hc;
        rewrite ?list_lookup_insert_eq by (rewrite ?length_insert; exact Hn);
        rewrite ?list_insert_insert_eq;
        rewrite ?wake_one_head, ?parked_nil)
    | repeat split ]).
Qed.

(** Inside [testPerformance] a caller that cannot move is at
    [mutex.lock()] with the mutex taken or in [readyForWork.wait]. *)
Lemma testPerformance_blocks_only s1 m c1 :
  clients s1 !! m = Some c1 -> in_testPerformance (pc c1) = true ->
  exec (C m) s1 = None ->
  (pc c1 = T_lock /\ mutex s1 <> None) \/
  (pc c1 = T_blocked /\
   (parked (Client m) (readyForWork s1) = true \/ mutex s1 <> None)).
Proof.
  intros Hc1 Hin H. unfold C in H. simpl in H.
  rewrite Hc1 in H. simpl in H.
  unfold exec_client, resume, acquire, wake_one in H.
  destruct (pc c1); try discriminate Hin; try discriminate H.
  - left. split; [done|]. destruct (mutex s1); [done|discriminate H].
  - destruct (deviceReady s1); discriminate H.
  - right. split; [done|].
    destruct (parked (Client m) (readyForWork s1)); [by left|right].
    destruct (mutex s1); [done|discriminate H].
  - destruct (newLoop s1); discriminate H.
  - destruct (cur c1) as [[]|]; discriminate H.
Qed.

(** With the mutex free on an object that is not being torn down, the
    device is ready exactly when [run] is inside its loop; before that
    [run] has not passed line 107. *)
Lemma free_mutex_states started scripts s :
  reachable (init started scripts) s -> abort s = false -> no_destructor s ->
  mutex s = None ->
  (deviceReady s = true /\ wk s <> W_off) \/
  (deviceReady s = false /\
   (wk s = W_off \/ wk s = W_prepare \/ wk s = W_lock_ready) /\ newLoop s = []).
Proof.
  intros Hr Ha Hn Hm.
  pose proof (owner_invariants _ _ _ Hr) as (_ & Hq & Hro & _).
  pose proof (more_invariants _ _ _ Hr) as (_ & [He Hy] & _).
  pose proof (invariants _ _ _ Hr) as (_ & [[Hw _] _] & _).
  destruct (deviceReady s) eqn:Ed.
  - left. split; [done|]. destruct (Hro Ha Ed) as [Hl|(m & d & Hd & Hp)].
    + intros E. by rewrite E in Hl.
    + specialize (Hn m d Hd). by destruct (pc d).
  - right. split; [done|].
    assert (Hl : in_loop (wk s) = false)
      by (destruct (in_loop (wk s)) eqn:E; [by specialize (Hy Ha eq_refl)|done]).
    assert (Hx : exiting (wk s) = false)
      by (destruct (exiting (wk s)) eqn:E; [by rewrite He in Ha|done]).
    assert (Hh : holds_w (wk s) = false)
      by (destruct (holds_w (wk s)) eqn:E; [by rewrite Hw in Hm|done]).
    destruct Hq as [Hq|[_ Hq]]; [|by rewrite Hq in Hl].
    split; [|done]. destruct (wk s); try discriminate; auto.
Qed.

(** C7 (as amended). [testPerformance] does not wait for the pass it
    requests.  For a caller about to call [testPerformance(i)]:
    (1) in every reachable state of an object that is not being torn down
    - wherever [run] stands and whoever holds the mutex - there is a run in
    which the call returns, having recorded [i] and signalled [newLoop]
    (the worker is not parked on it), and in which [updateInfo] is neither
    called nor returns: the call waits for no pass;
    (2) with the mutex free, the device ready and the thread running, the
    call is the caller's own seven steps, and neither the worker's location
    nor [testRunning] has changed;
    (3) with the mutex free and the thread not yet started or not yet
    prepared, the call returns as soon as the worker has signalled ready,
    before any pass has begun;
    (4) inside [testPerformance] a caller that cannot move is either at
    [mutex.lock()] with the mutex taken or in [readyForWork.wait]: it never
    waits on [testStart] or [testFinish]. *)
Theorem testPerformance_returns_before_pass started scripts s n c i rest :
  clients s !! n = Some c -> pc c = C_idle -> script c = Test i :: rest ->
  (reachable (init started scripts) s -> abort s = false -> no_destructor s ->
   exists ls s',
     run ls s = Some s' /\
     clients s' !! n = Some (Client_ rest None C_idle) /\
     index s' = i /\ newLoop s' = [] /\
     (exists l, log s' = EvReturn n (Test i) :: EvRequest n :: l) /\
     count is_invoke (log s') = count is_invoke (log s) /\
     count is_done (log s') = count is_done (log s)) /\
  (mutex s = None -> deviceReady s = true -> wk s <> W_off ->
   exists s',
     run (repeat (C n) 7) s = Some s' /\
     clients s' = <[n := Client_ rest None C_idle]> (clients s) /\
     index s' = i /\ newLoop s' = drop 1 (newLoop s) /\
     wk s' = wk s /\ testRunning s' = testRunning s /\
     log s' = EvReturn n (Test i) :: EvRequest n :: EvCall n (Test i) :: log s) /\
  (mutex s = None -> deviceReady s = false -> wk s = W_off \/ wk s = W_prepare ->
   exists s',
     run (repeat (C n) 5 ++ repeat W 5 ++ repeat (C n) 4) s = Some s' /\
     clients s' = <[n := Client_ rest None C_idle]> (clients s) /\
     index s' = i /\ wk s' = W_blocked /\ testRunning s' = testRunning s /\
     log s' = EvReturn n (Test i) :: EvRequest n :: EvReady :: EvPrepare
                :: EvCall n (Test i) :: log s) /\
  (forall s1 m c1,
     clients s1 !! m = Some c1 -> in_testPerformance (pc c1) = true ->
     exec (C m) s1 = None ->
     (pc c1 = T_lock /\ mutex s1 <> None) \/
     (pc c1 = T_blocked /\
      (parked (Client m) (readyForWork s1) = true \/ mutex s1 <> None))).
Proof.
  intros Hc Hpc Hsc. split; [|split; [|split]].
  - intros Hr Ha Hn.
    destruct (release_mutex started scripts (rank s) s (le_n _) Hr Ha Hn)
      as (ls1 & s1 & Hrun1 & Hm1 & Hr1 & Ha1 & Hn1 & Hi1 & Hv1 & Hd1).
    pose proof (Hi1 n c Hc Hpc) as Hc1.
    assert (Hlen : n < length (clients s1)) by (by eapply lookup_lt_Some).
    pose proof (owner_invariants _ _ _ Hr1) as (_ & Hq & _).
    destruct (free_mutex_states _ _ _ Hr1 Ha1 Hn1 Hm1)
      as [[Hd Hw]|(Hd & Hw & Hq')].
    + destruct (testPerformance_when_ready s1 n c i rest Hc1 Hpc Hsc Hm1 Hd Hw)
        as (s' & Hrun & Hcs & Hix & Hnl & _ & _ & Hlog).
      exists (ls1 ++ repeat (C n) 7), s'. split.
      { by rewrite (run_app _ _ _ _ Hrun1). }
      rewrite Hcs, Hlog, Hnl. simpl.
      split; [by apply list_lookup_insert_eq|]. split; [done|].
      split; [by destruct Hq as [-> |[-> _]]|]. split; [by eexists|]. done.
    + destruct (testPerformance_when_not_ready s1 n c i rest
                  (if decide (wk s1 = W_lock_ready) then 4 else 5)
                  Hc1 Hpc Hsc Hm1 Hd)
        as (s' & Hrun & Hcs & Hix & Hnl & _ & _ & Hlog).
      { destruct Hw as [Hw|[Hw|Hw]]; rewrite Hw; simpl; auto. }
      eexists (ls1 ++ _), s'. split.
      { by rewrite (run_app _ _ _ _ Hrun1). }
      rewrite Hcs, Hlog, Hnl. simpl.
      split; [by apply list_lookup_insert_eq|]. split; [done|].
      split; [done|]. split; [by eexists|].
      destruct (decide (wk s1 = W_lock_ready)); simpl; done.
  - apply (testPerformance_when_ready s n c i rest Hc Hpc Hsc).
  - intros Hm Hd Hw.
    destruct (testPerformance_when_not_ready s n c i rest 5 Hc Hpc Hsc Hm Hd)
      as (s' & Hrun & Hcs & Hix & _ & Hwk & Htr & Hlog); [by left|].
    by exists s'.
  - apply testPerformance_blocks_only.
Qed.

Lemma testPerformance_returns_before_pass_witness :
  (mutex worker_sets_running = Some Worker /\
   exists ls s', run ls worker_sets_running = Some s' /\ index s' = 7%Z) /\
  exists s',
    run (repeat (C 0) 7) mid_request = Some s' /\
    index s' = 7%Z /\ wk s' = W_updating /\
    log s' = EvReturn 0 (Test 7) :: EvRequest 0 :: EvCall 0 (Test 7)
               :: log mid_request.
Proof.
  split.
  - split; [reflexivity|].
    destruct (testPerformance_returns_before_pass true [[Test 5; Test 7]]
                worker_sets_running 0 (Client_ [Test 7] None C_idle) 7%Z []
                eq_refl eq_refl eq_refl) as [H _].
    destruct H as (ls & s' & Hrun & _ & Hi & _).
    + apply (run_reachable (repeat W 5 ++ repeat (C 0) 7 ++ repeat W 5)).
      vm_compute. reflexivity.
    + reflexivity.
    + intros [|m] d [=]. subst d. reflexivity.
    + by exists ls, s'.
  - destruct (testPerformance_returns_before_pass true [[Test 5; Test 7]]
                mid_request 0 (Client_ [Test 7] None C_idle) 7%Z []
                eq_refl eq_refl eq_refl) as (_ & H & _).
    destruct (H eq_refl eq_refl ltac:(discriminate))
      as (s' & Hrun & _ & Hi & _ & Hw & _ & Hl).
    exists s'. split; [exact Hrun|]. split; [exact Hi|].
    split; [rewrite Hw; reflexivity|exact Hl].
Defined.

(** C7, counterexample.  [testPerformance] is not non-blocking.  On an
    object whose thread was not started the first call starts it and waits
    in [readyForWork.wait]: it cannot move before [run] has executed
    [prepareDevice] and signalled ready.  And a call made while another
    thread runs the destructor can find [deviceReady] cleared (line 148)
    with the thread still running, so that it neither restarts the thread
    nor is ever woken: the destructor returns, the thread has terminated,
    no thread can move, and the caller is still parked on
    [readyForWork]. *)
Lemma testPerformance_can_block :
  (reachable_ns (init false [[Test 5]]) waits_for_prepare /\
   abort waits_for_prepare = false /\ wk waits_for_prepare = W_prepare /\
   clients waits_for_prepare = [Client_ [] (Some (Test 5)) T_blocked] /\
   parked (Client 0) (readyForWork waits_for_prepare) = true /\
   forall pick, exec (Step (Client 0) pick) waits_for_prepare = None) /\
  (reachable_ns (init true [[Test 5]; [Destroy]]) after_request_left /\
   stuck after_request_left /\ wk after_request_left = W_off /\
   In (EvReturn 1 Destroy) (log after_request_left) /\
   clients after_request_left !! 0
     = Some (Client_ [] (Some (Test 5)) T_blocked) /\
   parked (Client 0) (readyForWork after_request_left) = true).
Proof.
  split.
  - split; [apply (run_reachable_ns (repeat (C 0) 5)); vm_compute; reflexivity|].
    vm_compute. repeat split.
  - split; [apply (run_reachable_ns sched_request_left); vm_compute; reflexivity|].
    split; [apply stuckb_stuck; vm_compute; reflexivity|].
    vm_compute. split; [done|]. split; [by left|done].
Qed.

(** ** Teardown: what does hold *)

Lemma teardown_inv_step l s s' :
  pass_inv s -> teardown_inv s -> exec l s = Some s' -> teardown_inv s'.
Proof.
  intros Hp Hi H. revert Hp Hi.
  step_inv H; unfold teardown_inv, pass_inv; simpl;
    intros (Pb & Pi & Pd) (Hoff & K & L).
  all: try (pose proof (K _ _ Hc) as K0; simpl in K0).
  all: (split; [|split]);
    [ intros; fin; try lia
    | intros m c0 Hl; try other_client Hl; simpl; intros; fin;
      try (by eapply K); try (by destruct c)
    | simpl; try split; try done ].
  all: try (destruct c; try done); try (by specialize (K0 eq_refl)).
  split; [auto|simpl in *; lia].
Qed.

Lemma teardown_inv_init scripts : teardown_inv (init true scripts).
Proof.
  split; [done|]. split; [|done].
  intros n c Hc. by apply init_clients_idle in Hc as [_ ->].
Qed.

(** X19. The destructor returns only after [cleanDevice] has run and with
    no benchmark operation in flight (object started at construction). *)
Lemma destructor_returns_after_cleanup scripts s l1 n l2 :
  reachable (init true scripts) s ->
  log s = l1 ++ EvReturn n Destroy :: l2 ->
  1 <= count is_clean l2 /\ count is_invoke l2 = count is_done l2.
Proof.
  intros Hr. assert (Hi : pass_inv s /\ teardown_inv s).
  { revert s Hr. apply reachable_inv.
    - split; [apply pass_inv_init|apply teardown_inv_init].
    - intros l s1 s2 [Hp Ht] H. split; [by eapply pass_inv_step|by eapply teardown_inv_step]. }
  destruct Hi as (_ & _ & _ & L). revert L. generalize (log s). clear.
  induction l1 as [|e l1 IH]; intros l L ->; simpl in L.
  - apply L.
  - destruct L as [_ L]. by eapply IH.
Qed.

(** X20. With the worker parked on [newLoop] when the destructor is
    entered, and no other caller, the system comes to rest only torn
    down. *)
Lemma teardown_completes_when_parked s :
  reachable_ns destroy_while_parked s -> stuck s -> torn_down s.
Proof.
  intros Hr Hs.
  assert (Hin : s ∈ reach_destroy_while_parked).
  { eapply closed_reachable; [| |exact Hr].
    - vm_compute. reflexivity.
    - apply (proj1 (bool_decide_eq_true _)). vm_compute. reflexivity. }
  assert (Hok : Forall (fun s => stuckb s = true -> torn_down s)
                  reach_destroy_while_parked)
    by (apply (proj1 (bool_decide_eq_true _)); vm_compute; reflexivity).
  rewrite Forall_forall in Hok. apply (Hok s Hin). by apply stuckb_stuck.
Qed.

(** X21. If [abort] is set while the worker is inside [updateInfo], the
    system comes to rest only torn down: the second test of [abort]
    (line 140) sees it. *)
Lemma teardown_completes_when_abort_set_mid_pass s :
  reachable_ns (init true [[Test 5; Destroy]]) s -> stuck s ->
  count is_invoke (before_abort (log s))
    = S (count is_done (before_abort (log s))) ->
  torn_down s.
Proof.
  intros Hr Hs.
  assert (Hin : s ∈ reach_test_destroy).
  { eapply closed_reachable; [| |exact Hr].
    - vm_compute. reflexivity.
    - apply (proj1 (bool_decide_eq_true _)). vm_compute. reflexivity. }
  assert (Hok : Forall (fun s => stuckb s = true ->
                  count is_invoke (before_abort (log s))
                    = S (count is_done (before_abort (log s))) -> torn_down s)
                  reach_test_destroy)
    by (apply (proj1 (bool_decide_eq_true _)); vm_compute; reflexivity).
  rewrite Forall_forall in Hok. apply (Hok s Hin). by apply stuckb_stuck.
Qed.


(** In the run of C5, once left behind, the caller never leaves the first
    loop of [waitPerformance], spurious wake-ups included: each time it
    finds [testRunning] clear and parks again. *)
Lemma blocked_waiter_never_returns s :
  reachable after_waiter_left s -> left_blocked s.
Proof.
  apply reachable_inv.
  - repeat split. exists P_blocked_start. split; [by left|reflexivity].
  - intros l s1 s2 Hi H. revert Hi.
    step_inv H; unfold left_blocked; simpl; intros (Hw & Ht & p0 & Hp & Hcs);
      try discriminate; subst.
    all: try (destruct n as [|[|n]]; simplify_eq/=).
    all: try (destruct Hp; discriminate).
    all: repeat split; eauto.
Qed.

(** ** C10: [updateInfo] *)

(** C10. [updateInfo] calls the bandwidth measurement; if that returns -1
    it returns -1 and the throughput measurement is not called (the record
    is as the bandwidth call left it and only that call is logged);
    otherwise the throughput measurement is called on the record and its
    return code is the result. *)
Theorem updateInfo_short_circuit cuda d :
  let rb := cuda CalcDeviceBandwidth (info d) in
  let rp := cuda CalcDevicePerformance (snd rb) in
  updateInfo cuda d =
    if (fst rb =? -1)%Z
    then ((-1)%Z, Device (snd rb) ((CalcDeviceBandwidth, (-1)%Z) :: calls d))
    else (fst rp,
          Device (snd rp)
            ((CalcDevicePerformance, fst rp)
               :: (CalcDeviceBandwidth, fst rb) :: calls d)).
Proof.
  unfold updateInfo, dev_bind, dev_ret, invoke. simpl.
  destruct (Z.eqb_spec (fst (cuda CalcDeviceBandwidth (info d))) (-1)) as [->| _];
    reflexivity.
Qed.

(** ** C9: failures of the device operations *)

Lemma run_dev_reachable cuda ls : forall sd0 sd,
  run_dev cuda ls sd0 = Some sd -> reachable_dev cuda sd0 sd.
Proof.
  assert (Ht : forall a b c, reachable_dev cuda a b -> reachable_dev cuda b c ->
                             reachable_dev cuda a c).
  { intros a b c H1 H2. induction H2; [done|]. eapply reach_dev_step; eauto. }
  induction ls as [|l ls IH]; simpl; intros sd0 sd H.
  - injection H as <-. constructor.
  - destruct (exec_dev cuda l sd0) as [sd1|] eqn:E; simpl in H; [|discriminate].
    eapply Ht; [|by apply IH]. eapply reach_dev_step; [constructor|done].
Qed.

Section Fields.
Variable cuda : cuda_layer.
Hypothesis Hfail : failure_keeps_fields cuda.
Hypothesis Honly : only_measurements_write cuda.
Variable z : CZDeviceInfoBand * CZDeviceInfoPerf.

Lemma invoke_fields k d : fields_inv z d -> fields_inv z (snd (invoke cuda k d)).
Proof.
  unfold fields_inv, no_measurement, invoke. simpl. intros Hi Hn.
  apply Forall_cons in Hn as [Hk Hn]. simpl in Hk.
  destruct (is_measurement k) eqn:E.
  - rewrite Hfail; auto.
  - rewrite Honly; auto.
Qed.

Lemma updateInfo_fields d : fields_inv z d -> fields_inv z (snd (updateInfo cuda d)).
Proof.
  intros Hi. unfold updateInfo, dev_bind, dev_ret.
  destruct (invoke cuda CalcDeviceBandwidth d) as [r d1] eqn:E.
  assert (H1 : fields_inv z d1)
    by (change d1 with (snd (r, d1)); rewrite <- E; by apply invoke_fields).
  destruct (r =? -1)%Z; [done|]. by apply invoke_fields.
Qed.

Lemma reachable_dev_fields sd0 sd :
  reachable_dev cuda sd0 sd -> fields_inv z (snd sd0) -> fields_inv z (snd sd).
Proof.
  intros Hr H0. induction Hr as [|[s d] l [s' d'] _ IH H]; [done|].
  unfold exec_dev in H. destruct (exec l s) as [s1|]; simpl in H; [|done].
  injection H as <- <-. simpl in *. unfold dev_step.
  destruct l as [[|n] pick|t]; try done.
  destruct (wk s); try done;
    [apply invoke_fields|apply updateInfo_fields|apply invoke_fields]; done.
Qed.
End Fields.



(** * Further properties of the update thread *)

(** X1. Mutual exclusion: in every reachable state the threads standing
    between a [mutex.lock()] and the matching [unlock()] or [wait] are at
    most one, and that thread is the holder of the mutex.  Every write of
    [abort], [testRunning] and [deviceReady] therefore happens under the
    lock. *)
Theorem mutual_exclusion started scripts s :
  reachable (init started scripts) s ->
  (holds_w (wk s) = true ->
     mutex s = Some Worker /\
     forall n c, clients s !! n = Some c -> holds_c (pc c) = false) /\
  (forall n m c d,
     clients s !! n = Some c -> clients s !! m = Some d ->
     holds_c (pc c) = true -> holds_c (pc d) = true ->
     n = m /\ mutex s = Some (Client n)).
Proof.
  intros Hr. apply invariants in Hr as (_ & ([Hw Hm] & _) & _). split.
  - intros H. split; [auto|]. intros n c Hc.
    destruct (holds_c (pc c)) eqn:E; [|done].
    specialize (Hw H). specialize (Hm n c Hc E). congruence.
  - intros n m c d Hc Hd Ec Ed.
    pose proof (Hm n c Hc Ec) as H1. pose proof (Hm m d Hd Ed) as H2.
    split; [congruence|done].
Qed.

Lemma mutual_exclusion_witness :
  mutex caller_seen_start = Some (Client 0) /\ holds_w (wk caller_seen_start) = false.
Proof.
  assert (Hr : reachable (init true [[Wait]]) caller_seen_start)
    by (apply (run_reachable sched_seen_start); vm_compute; reflexivity).
  destruct (mutual_exclusion true [[Wait]] caller_seen_start Hr) as [_ H].
  split; [|reflexivity].
  apply (H 0 0 (Client_ [] (Some Wait) P_seen_start)
           (Client_ [] (Some Wait) P_seen_start)); reflexivity.
Defined.

Lemma invokes_prepared_split l1 : forall l2 l,
  invokes_prepared l -> l = l1 ++ EvInvoke :: l2 ->
  count is_prepare l2 = S (count is_clean l2).
Proof.
  induction l1 as [|e l1 IH]; intros l2 l H ->; simpl in H.
  - apply H.
  - destruct H as [_ H]. by eapply IH.
Qed.

(** X2. [prepareDevice] and [cleanDevice] bracket each run of the thread:
    the calls of [prepareDevice] exceed those of [cleanDevice] by one
    exactly while a run stands between the two, and every call of
    [updateInfo] is made on a prepared device, after the [prepareDevice] of
    the run and before its [cleanDevice]. *)
Theorem updateInfo_on_prepared_device started scripts s :
  reachable (init started scripts) s ->
  count is_prepare (log s) = count is_clean (log s) + prepared (wk s) /\
  (forall l1 l2, log s = l1 ++ EvInvoke :: l2 ->
     count is_prepare l2 = S (count is_clean l2)).
Proof.
  intros Hr. apply more_invariants in Hr as ([H1 H2] & _). split; [done|].
  intros l1 l2 E. by eapply invokes_prepared_split.
Qed.

Lemma updateInfo_on_prepared_device_witness :
  count is_prepare (log mid_pass) = count is_clean (log mid_pass) + 1.
Proof.
  assert (Hr : reachable (init true [[Wait]]) mid_pass)
    by (apply (run_reachable sched_first_wait); vm_compute; reflexivity).
  apply (updateInfo_on_prepared_device true [[Wait]] mid_pass Hr).
Defined.

(** X3. Without spurious wake-ups the worker never runs a pass nobody
    asked for: the passes begun never exceed the [newLoop.wakeOne()] calls
    made by [testPerformance], also while the object is torn down (a
    worker woken by the destructor sees [abort] and leaves). *)
Theorem no_pass_without_request started scripts s :
  reachable_ns (init started scripts) s ->
  count is_begin (log s) <= count is_request_any (log s).
Proof.
  intros Hr. assert (Hi : request_inv s).
  { revert s Hr. apply reachable_ns_inv; [apply request_inv_init|].
    intros l s1 s2 Hs Hi H. by eapply request_inv_step. }
  destruct Hi as [H _]. lia.
Qed.

Lemma no_pass_without_request_witness :
  count is_begin (log after_two_requests) <= 2.
Proof.
  assert (Hr : reachable_ns (init true [[Test 5; Test 5]]) after_two_requests)
    by (apply (run_reachable_ns sched_two_requests); vm_compute; reflexivity).
  apply (no_pass_without_request true [[Test 5; Test 5]] after_two_requests Hr).
Defined.

(** X4. Every [testedPerformance(i)] emitted carries an index that some
    call has passed to [testPerformance]: [testPerformance(i)] itself, or
    [waitPerformance()] for -1; and at most one notification is emitted per
    pass ended.  The test of line 137 does not keep -1 out: [index] is
    read again at line 138, and a [waitPerformance()] that writes it
    between the two reads makes [run] emit [testedPerformance(-1)]. *)
Theorem notifications_carry_passed_indices started scripts s :
  reachable (init started scripts) s ->
  (forall i, In i (emitted (log s)) -> passed scripts i) /\
  length (emitted (log s)) <= count is_end (log s).
Proof.
  intros Hr. apply more_invariants in Hr as (_ & _ & (_ & _ & _ & _ & Hf & Hn)).
  split; [|lia]. intros i Hi. rewrite Forall_forall in Hf.
  apply Hf. by apply list_elem_of_In.
Qed.

Lemma notifications_carry_passed_indices_witness :
  emitted (log after_report_minus_one) = [(-1)%Z] /\
  passed [[Test 5; Wait]] (-1).
Proof.
  split; [reflexivity|].
  assert (Hr : reachable (init true [[Test 5; Wait]]) after_report_minus_one)
    by (apply (run_reachable sched_report_minus_one); vm_compute; reflexivity).
  destruct (notifications_carry_passed_indices true [[Test 5; Wait]]
              after_report_minus_one Hr) as [H _].
  apply (H (-1)%Z). left. reflexivity.
Defined.

(** X5. While the object is not being torn down, [deviceReady] is set
    whenever [run] is inside its loop, so a caller of [testPerformance]
    that tests [deviceReady] then goes on to [newLoop.wakeOne()]: it can
    wait on [readyForWork] only while the device is being prepared. *)
Theorem ready_until_teardown started scripts s :
  reachable (init started scripts) s ->
  abort s = false -> in_loop (wk s) = true ->
  deviceReady s = true /\
  (forall n c pick s' c',
     clients s !! n = Some c -> pc c = T_check_ready ->
     exec (Step (Client n) pick) s = Some s' -> clients s' !! n = Some c' ->
     pc c' = T_wake_loop).
Proof.
  intros Hr Ha Hl. apply more_invariants in Hr as (_ & [_ Hd] & _).
  specialize (Hd Ha Hl). split; [done|].
  intros n c pick s' c' Hc Hpc H Hc'. simpl in H. rewrite Hc in H. simpl in H.
  unfold exec_client, goto in H. rewrite Hpc, Hd in H. injection H as <-.
  simpl in Hc'. apply list_lookup_insert_Some in Hc' as [(_ & <- & _)|[? _]]; done.
Qed.

Lemma ready_until_teardown_witness : deviceReady mid_pass = true.
Proof.
  assert (Hr : reachable (init true [[Wait]]) mid_pass)
    by (apply (run_reachable sched_first_wait); vm_compute; reflexivity).
  apply (ready_until_teardown true [[Wait]] mid_pass Hr eq_refl eq_refl).
Defined.

(** X6. The first synchronous measurement.  On a freshly constructed
    object with [waitPerformance()] as the only call, in every run without
    spurious wake-ups the system comes to rest in one of two ways: the call
    has returned after exactly one pass, or the pass has begun and ended
    before the caller re-locked the mutex (line 86) and the caller is
    parked on [testStart] with nobody left to wake it.  Both happen. *)
Theorem first_wait_returns_or_hangs :
  (forall s, reachable_ns first_wait s -> stuck s ->
             first_wait_done s \/ first_wait_missed s) /\
  (reachable_ns first_wait after_first_wait_done /\
   stuck after_first_wait_done /\ first_wait_done after_first_wait_done) /\
  (reachable_ns first_wait after_first_wait_missed /\
   stuck after_first_wait_missed /\ first_wait_missed after_first_wait_missed).
Proof.
  split; [|split].
  - intros s Hr Hs.
    assert (Hin : s ∈ reach_first_wait).
    { eapply closed_reachable; [| |exact Hr].
      - vm_compute. reflexivity.
      - apply (proj1 (bool_decide_eq_true _)). vm_compute. reflexivity. }
    assert (Hok : Forall (fun s => stuckb s = true ->
                            first_wait_done s \/ first_wait_missed s)
                    reach_first_wait)
      by (apply (proj1 (bool_decide_eq_true _)); vm_compute; reflexivity).
    rewrite Forall_forall in Hok. apply (Hok s Hin). by apply stuckb_stuck.
  - split; [apply (run_reachable_ns sched_first_wait_done); vm_compute; reflexivity|].
    split; [apply stuckb_stuck; vm_compute; reflexivity|].
    vm_compute. repeat split.
  - split; [apply (run_reachable_ns sched_first_wait_missed); vm_compute; reflexivity|].
    split; [apply stuckb_stuck; vm_compute; reflexivity|].
    vm_compute. repeat split.
Qed.

(** X7. Requests for two devices.  One caller calls [testPerformance(5)]
    and then [testPerformance(7)] on a fresh object.  In every run without
    spurious wake-ups, once nothing can move, either both devices have been
    notified in order (two passes), or one pass has run and its
    notification names device 7 (the index was overwritten before line
    138 read it), or one pass has run, notified as device 5, and the
    request for device 7 has produced neither a pass nor a notification.
    All three happen. *)
Theorem two_devices_outcomes :
  (forall s, reachable_ns two_devices s -> stuck s -> two_devices_outcome s) /\
  (reachable_ns two_devices after_both_notified /\ stuck after_both_notified /\
   emitted (log after_both_notified) = [7%Z; 5%Z]) /\
  (reachable_ns two_devices after_first_renamed /\ stuck after_first_renamed /\
   emitted (log after_first_renamed) = [7%Z]) /\
  (reachable_ns two_devices after_second_dropped /\ stuck after_second_dropped /\
   emitted (log after_second_dropped) = [5%Z]).
Proof.
  split; [|split; [|split]].
  - intros s Hr Hs.
    assert (Hin : s ∈ reach_two_devices).
    { eapply closed_reachable; [| |exact Hr].
      - vm_compute. reflexivity.
      - apply (proj1 (bool_decide_eq_true _)). vm_compute. reflexivity. }
    assert (Hok : Forall (fun s => stuckb s = true -> two_devices_outcome s)
                    reach_two_devices)
      by (apply (proj1 (bool_decide_eq_true _)); vm_compute; reflexivity).
    rewrite Forall_forall in Hok. apply (Hok s Hin). by apply stuckb_stuck.
  - split; [apply (run_reachable_ns sched_both_notified); vm_compute; reflexivity|].
    split; [apply stuckb_stuck; vm_compute; reflexivity|reflexivity].
  - split; [apply (run_reachable_ns sched_first_renamed); vm_compute; reflexivity|].
    split; [apply stuckb_stuck; vm_compute; reflexivity|reflexivity].
  - split; [apply (run_reachable_ns sched_second_dropped); vm_compute; reflexivity|].
    split; [apply stuckb_stuck; vm_compute; reflexivity|reflexivity].
Qed.

Lemma destructor_returns_after_cleanup_witness :
  1 <= count is_clean (tail (log after_destroy_mid_pass)) /\
  count is_invoke (tail (log after_destroy_mid_pass))
    = count is_done (tail (log after_destroy_mid_pass)).
Proof.
  assert (Hr : reachable (init true [[Test 5; Destroy]]) after_destroy_mid_pass)
    by (apply (run_reachable sched_destroy_mid_pass); vm_compute; reflexivity).
  apply (destructor_returns_after_cleanup [[Test 5; Destroy]]
           after_destroy_mid_pass [] 0 _ Hr eq_refl).
Defined.

Lemma teardown_completes_when_parked_witness : torn_down after_destroy_parked.
Proof.
  apply teardown_completes_when_parked.
  - apply (run_reachable_ns sched_destroy_parked); vm_compute; reflexivity.
  - apply stuckb_stuck; vm_compute; reflexivity.
Defined.

Lemma teardown_completes_when_abort_set_mid_pass_witness :
  torn_down after_destroy_mid_pass.
Proof.
  apply teardown_completes_when_abort_set_mid_pass.
  - apply (run_reachable_ns sched_destroy_mid_pass); vm_compute; reflexivity.
  - apply stuckb_stuck; vm_compute; reflexivity.
  - reflexivity.
Defined.

(** X22. A caller in the first loop of [waitPerformance] (lines 88-89)
    leaves it only while [run] is inside a pass, after line 126 and before
    line 133: the [testRunning = true] the destructor writes at line 44 is
    never seen at line 88, since the destructor clears it again (line 46)
    before it unlocks.  So once the worker has terminated the caller stays
    in the loop, spurious wake-ups and further destructor calls included,
    until a later request restarts the thread and a pass begins. *)
Theorem waiter_leaves_only_during_pass started scripts s n c pick s' c' :
  reachable (init started scripts) s ->
  clients s !! n = Some c -> pc c = P_check_start \/ pc c = P_blocked_start ->
  exec (Step (Client n) pick) s = Some s' -> clients s' !! n = Some c' ->
  pc c' = P_check_start \/ pc c' = P_blocked_start \/
  (pc c' = P_seen_start /\ testRunning s = true /\ 1 <= phase (wk s)).
Proof.
  intros Hr Hc Hp H Hc'.
  pose proof (owner_invariants _ _ _ Hr) as (_ & _ & _ & Hf).
  pose proof (invariants _ _ _ Hr) as (_ & [[_ Hm] _] & _).
  assert (Hlt : n < length (clients s)) by (by eapply lookup_lt_Some).
  simpl in H. rewrite Hc in H. simpl in H. unfold exec_client in H.
  destruct Hp as [Hp|Hp]; rewrite Hp in H.
  - destruct (testRunning s) eqn:Et; injection H as <-; simpl in Hc';
      rewrite list_lookup_insert_eq in Hc' by done; injection Hc' as <-; simpl;
      [|by auto].
    right. right. split; [done|]. split; [done|].
    destruct (Hf Et) as [Hl|(m & d & Hd & Hx)]; [done|].
    assert (Hh : holds_c (pc d) = true) by (by destruct (pc d)).
    pose proof (Hm m d Hd Hh) as H1.
    pose proof (Hm n c Hc ltac:(by rewrite Hp)) as H2.
    rewrite H1 in H2. injection H2 as ->. rewrite Hc in Hd. injection Hd as <-.
    by rewrite Hp in Hx.
  - unfold resume, acquire in H.
    destruct (parked (Client n) (testStart s)); [done|].
    destruct (mutex s); [done|]. injection H as <-. simpl in Hc'.
    rewrite list_lookup_insert_eq in Hc' by done. injection Hc' as <-. by left.
Qed.

Lemma waiter_leaves_only_during_pass_witness :
  testRunning caller_checks_start = true /\ 1 <= phase (wk caller_checks_start).
Proof.
  assert (Hr : reachable (init true [[Wait]]) caller_checks_start)
    by (apply (run_reachable
                 (repeat W 5 ++ repeat (C 0) 9 ++ repeat W 8 ++ repeat (C 0) 1));
        vm_compute; reflexivity).
  destruct (waiter_leaves_only_during_pass true [[Wait]] caller_checks_start 0
              (Client_ [] (Some Wait) P_check_start) 0 caller_seen_start
              (Client_ [] (Some Wait) P_seen_start) Hr eq_refl
              (or_introl eq_refl) eq_refl eq_refl)
    as [H|[H|(_ & H1 & H2)]]; [discriminate H|discriminate H|].
  split; [exact H1|exact H2].
Defined.

(** X23. [waitPerformance()] entered while a pass is in flight can block
    for ever.  One caller calls [testPerformance(5)] and then
    [waitPerformance()]; the pass of the first request is inside
    [updateInfo] when the second call makes its request, so its
    [newLoop.wakeOne()] finds the worker not parked; the pass is over
    before the caller locks the mutex at line 86.  The caller finds
    [testRunning] clear and parks on [testStart], the worker parks on
    [newLoop], and no thread can move: one pass has run and the call does
    not return. *)
Theorem wait_can_be_left_behind :
  reachable_ns (init true [[Test 5; Wait]]) after_wait_left_behind /\
  stuck after_wait_left_behind /\
  clients after_wait_left_behind = [Client_ [] (Some Wait) P_blocked_start] /\
  testStart after_wait_left_behind = [Client 0] /\
  wk after_wait_left_behind = W_blocked /\
  newLoop after_wait_left_behind = [Worker] /\
  abort after_wait_left_behind = false /\
  count is_begin (before 0 (log after_wait_left_behind))
    = S (count is_end (before 0 (log after_wait_left_behind))) /\
  count is_begin (log after_wait_left_behind) = 1 /\
  count is_end (log after_wait_left_behind) = 1.
Proof.
  split; [apply (run_reachable_ns sched_wait_left_behind); vm_compute; reflexivity|].
  split; [apply stuckb_stuck; vm_compute; reflexivity|].
  vm_compute. repeat split.
Qed.

(** * The splash screen log *)

Lemma split_cons sep s : exists x xs, split sep s = x :: xs.
Proof.
  destruct s as [|c r]; simpl; [by eauto|].
  destruct (Ascii.eqb c sep); [by eauto|]. destruct (split sep r); by eauto.
Qed.

Lemma split_length sep s : 1 <= length (split sep s).
Proof. destruct (split_cons sep s) as (x & xs & ->). simpl. lia. Qed.

Lemma join_split sep s : join sep (split sep s) = s.
Proof.
  induction s as [|c r IH]; simpl; [done|].
  destruct (Ascii.eqb_spec c sep) as [->|Hc].
  - destruct (split_cons sep r) as (x & xs & E). rewrite E in *. simpl.
    by rewrite <- IH.
  - destruct (split_cons sep r) as (x & xs & E). rewrite E in *.
    rewrite <- IH. simpl. by destruct xs.
Qed.

Lemma split_free sep s : Forall (fun x => free_of sep x = true) (split sep s).
Proof.
  induction s as [|c r IH]; simpl; [by repeat constructor|].
  destruct (Ascii.eqb c sep) eqn:Hc; [by constructor|].
  destruct (split sep r) as [|x xs]; [by repeat constructor; simpl; rewrite Hc|].
  apply Forall_cons in IH as [Hx Hxs]. constructor; [|done]. simpl. by rewrite Hc, Hx.
Qed.

Lemma split_free_string sep x : free_of sep x = true -> split sep x = [x].
Proof.
  induction x as [|c r IH]; simpl; [done|]. intros [Hc Hr]%andb_prop.
  apply negb_true_iff in Hc. rewrite Hc, (IH Hr). done.
Qed.

Lemma split_append sep a b :
  split sep (a +:+ String sep b) = split sep a ++ split sep b.
Proof.
  induction a as [|c r IH]; simpl.
  - by rewrite Ascii.eqb_refl.
  - destruct (Ascii.eqb c sep); [by rewrite IH|]. rewrite IH.
    destruct (split_cons sep r) as (x & xs & ->). done.
Qed.

Lemma split_append_free sep x b :
  free_of sep x = true ->
  split sep (x +:+ String sep b) = x :: split sep b.
Proof. intros Hx. by rewrite split_append, split_free_string. Qed.

Lemma split_join sep l :
  l <> [] -> Forall (fun x => free_of sep x = true) l ->
  split sep (join sep l) = l.
Proof.
  induction l as [|x r IH]; [done|]. intros _ Hf.
  apply Forall_cons in Hf as [Hx Hr]. destruct r as [|y r'].
  - simpl. by apply split_free_string.
  - change (join sep (x :: y :: r')) with (x +:+ String sep (join sep (y :: r'))).
    rewrite split_append_free by done. by rewrite IH.
Qed.

Lemma removeFirst_drop n : forall l,
  n <= length l -> removeFirst n l = Some (drop n l).
Proof.
  induction n as [|n IH]; intros l Hn; [by rewrite drop_0|].
  destruct l; simpl in *; [lia|]. apply IH. lia.
Qed.

Lemma removeFirst_fails n : forall l, length l < n -> removeFirst n l = None.
Proof.
  induction n as [|n IH]; intros l Hn; [lia|].
  destruct l; simpl in *; [done|]. apply IH. lia.
Qed.

Lemma length_zero_empty s : (String.length s =? 0)%nat = true <-> s = EmptyString.
Proof. destruct s; simpl; split; done. Qed.

(** Cutting the log down to its last [k >= 1] lines. *)
Lemma deleteTop_keeps_last text n max a c scr :
  (1 <= max)%Z -> (max < Z.of_nat (length (split newline text)))%Z ->
  n = Z.of_nat (length (split newline text)) ->
  exists sp',
    deleteTop (n - max) (Splash text n max a c scr) = Some sp' /\
    split newline (m_message sp')
      = drop (length (split newline text) - Z.to_nat max) (split newline text) /\
    m_lines sp' = max /\ m_maxLines sp' = max /\
    m_alignment sp' = a /\ m_color sp' = c /\ screen sp' = scr.
Proof.
  intros Hmax Hlt ->. unfold deleteTop. simpl.
  set (all := split newline text) in *.
  assert (Hk : Z.to_nat (Z.of_nat (length all) - max) = length all - Z.to_nat max)
    by lia.
  rewrite Hk, removeFirst_drop by lia. simpl. eexists. split; [done|]. simpl.
  split; [|repeat split; lia].
  apply split_join.
  - intros E. apply (f_equal length) in E. rewrite length_drop in E. simpl in E. lia.
  - apply Forall_drop, split_free.
Qed.

Lemma appended_lines message sp :
  exists older, split newline (appended message sp) = older ++ split newline message.
Proof.
  unfold appended. destruct (String.length (m_message sp) =? 0)%nat.
  - by exists [].
  - exists (split newline (m_message sp)). apply split_append.
Qed.

Lemma showMessage_spec message a c sp :
  (1 <= m_maxLines sp)%Z ->
  exists sp',
    showMessage message a c sp = Some sp' /\
    split newline (m_message sp')
      = drop (length (split newline (appended message sp)) - Z.to_nat (m_maxLines sp))
          (split newline (appended message sp)) /\
    m_lines sp' = Z.of_nat (length (split newline (m_message sp'))) /\
    (m_lines sp' <= m_maxLines sp')%Z /\
    m_maxLines sp' = m_maxLines sp /\ m_alignment sp' = a /\ m_color sp' = c /\
    screen sp' = m_message sp'.
Proof.
  intros Hmax. unfold showMessage. fold (appended message sp).
  set (text := appended message sp). cbv zeta. simpl.
  destruct (Z.ltb_spec (m_maxLines sp) (Z.of_nat (length (split newline text)))) as [Hlt|Hge].
  - destruct (deleteTop_keeps_last text _ (m_maxLines sp) a c (screen sp) Hmax Hlt eq_refl)
      as (sp' & -> & Hs & Hl & Hm & Ha & Hc & _).
    simpl. eexists. split; [done|]. simpl. rewrite Hs, length_drop.
    repeat split; try done; lia.
  - eexists. split; [done|]. simpl.
    replace (length (split newline text) - Z.to_nat (m_maxLines sp)) with 0 by lia.
    rewrite drop_0. repeat split; try done; lia.
Qed.

Lemma setMaxLines_spec n sp :
  (1 <= n)%Z -> lines_ok sp ->
  exists sp',
    setMaxLines n sp = Some sp' /\
    split newline (m_message sp')
      = drop (length (split newline (m_message sp)) - Z.to_nat n)
          (split newline (m_message sp)) /\
    m_maxLines sp' = n /\ (m_lines sp' = m_lines sp `min` n)%Z /\ lines_ok sp' /\
    (screen sp = m_message sp -> screen sp' = m_message sp').
Proof.
  intros Hn Hok. unfold setMaxLines.
  destruct (Z.leb_spec 1 n) as [_|?]; [|lia]. cbv zeta. simpl.
  pose proof (split_length newline (m_message sp)) as Hlen.
  destruct (Z.ltb_spec n (m_lines sp)) as [Hlt|Hge].
  - destruct Hok as [Hl|[_ Hl]]; [|lia].
    destruct (deleteTop_keeps_last (m_message sp) (m_lines sp) n (m_alignment sp)
                (m_color sp) (screen sp) Hn ltac:(lia) Hl)
      as (sp' & -> & Hs & Hl' & Hm & _).
    simpl. eexists. split; [done|]. simpl. rewrite Hs.
    repeat split; try done; try lia.
    left. simpl. rewrite Hs, length_drop. lia.
  - eexists. split; [done|]. simpl.
    assert (length (split newline (m_message sp)) - Z.to_nat n = 0) as ->.
    { destruct Hok as [Hl|[E Hl]]; [lia|]. rewrite E. simpl. lia. }
    rewrite drop_0. repeat split; try done; try lia.
Qed.

Lemma showMessage_no_room message a c sp :
  (m_maxLines sp <= 0)%Z ->
  match showMessage message a c sp with
  | None => (m_maxLines sp < 0)%Z
  | Some sp' =>
      m_maxLines sp = 0%Z /\ m_message sp' = EmptyString /\ m_lines sp' = 0%Z /\
      screen sp' = EmptyString /\ m_maxLines sp' = 0%Z
  end.
Proof.
  intros Hmax. unfold showMessage. fold (appended message sp). cbv zeta. simpl.
  pose proof (split_length newline (appended message sp)) as Hlen.
  destruct (Z.ltb_spec (m_maxLines sp)
              (Z.of_nat (length (split newline (appended message sp))))) as [_|?]; [|lia].
  unfold deleteTop. simpl.
  destruct (Z.eq_dec (m_maxLines sp) 0%Z) as [E|E].
  - rewrite E, Z.sub_0_r, Nat2Z.id, removeFirst_drop, drop_all by lia. simpl.
    repeat split; lia.
  - rewrite removeFirst_fails by lia. simpl. lia.
Qed.

Lemma splash_do_inv o sp :
  splash_inv sp -> exists sp', splash_do o sp = Some sp' /\ splash_inv sp'.
Proof.
  intros (Hr & Hok & Hscr). destruct o as [n|m a c|]; simpl.
  - destruct (Z.leb_spec 1 n) as [Hn|Hn].
    + destruct (setMaxLines_spec n sp Hn Hok) as (sp' & E & _ & Hm & Hl & Hok' & Hs).
      exists sp'. split; [done|]. repeat split; auto; lia.
    + exists sp. unfold setMaxLines. destruct (Z.leb_spec 1 n); [lia|]. done.
  - destruct (Z.eq_dec (m_maxLines sp) 0%Z) as [H0|H0].
    + pose proof (showMessage_no_room m a c sp ltac:(lia)) as H.
      destruct (showMessage m a c sp) as [sp'|]; [|lia].
      destruct H as (Hm & Hmsg & Hl & Hs & Hm'). exists sp'. split; [done|].
      split; [lia|]. split; [by right|congruence].
    + destruct (showMessage_spec m a c sp ltac:(lia))
        as (sp' & E & _ & Hl & Hle & Hm & _ & _ & Hs).
      exists sp'. split; [done|]. repeat split; auto; try lia. by left.
  - eexists. split; [done|]. repeat split; simpl; try lia. by right.
Qed.

(** X8. The log stays consistent whatever is done with it: from a splash
    screen constructed with room for [maxLines >= 0] lines, every sequence
    of [setMaxLines], [showMessage] and [clearMessage] calls succeeds (no
    [removeFirst] on an empty list), never holds more than [m_maxLines]
    lines, keeps [m_lines] equal to the number of lines of [m_message]
    (or 0 for an empty log), and leaves the window showing [m_message]. *)
Theorem splash_log_consistent (maxLines0 : Z) (ops : list splash_op) :
  (0 <= maxLines0)%Z ->
  exists sp, splash_run ops (CZSplashScreen_new maxLines0) = Some sp /\ splash_inv sp.
Proof.
  intros Hn.
  assert (Hinit : splash_inv (CZSplashScreen_new maxLines0)).
  { repeat split; simpl; try lia. by right. }
  revert Hinit. generalize (CZSplashScreen_new maxLines0).
  induction ops as [|o ops IH]; intros sp Hinv; simpl.
  - by exists sp.
  - destruct (splash_do_inv o sp Hinv) as (sp' & -> & Hinv'). simpl. by apply IH.
Qed.

Lemma splash_log_consistent_witness :
  exists sp,
    splash_run [ShowMessage "a" 1 0; ShowMessage "b" 1 0; SetMaxLines 1;
                ClearMessage; ShowMessage "c" 1 0] (CZSplashScreen_new 2) = Some sp /\
    splash_inv sp.
Proof. apply (splash_log_consistent 2); lia. Defined.

(** X9. [showMessage] appends the message to the log and keeps the most
    recent [m_maxLines] lines: with room for at least one line, the call
    succeeds, the lines of the new log are the last [m_maxLines] lines of
    the old log followed by the message, [m_lines] is their number, the
    window shows the new log, and a message of at most [m_maxLines] lines
    is entirely visible at the end of the log. *)
Theorem showMessage_keeps_most_recent (message : string) (alignment color : Z)
    (sp : CZSplashScreen) :
  (1 <= m_maxLines sp)%Z ->
  exists sp',
    showMessage message alignment color sp = Some sp' /\
    split newline (m_message sp')
      = drop (length (split newline (appended message sp)) - Z.to_nat (m_maxLines sp))
          (split newline (appended message sp)) /\
    m_lines sp' = Z.of_nat (length (split newline (m_message sp'))) /\
    (m_lines sp' <= m_maxLines sp)%Z /\
    maxLines sp' = maxLines sp /\
    screen sp' = m_message sp' /\
    (length (split newline message) <= Z.to_nat (m_maxLines sp) ->
     exists older, split newline (m_message sp') = older ++ split newline message).
Proof.
  intros Hmax.
  destruct (showMessage_spec message alignment color sp Hmax)
    as (sp' & E & Hs & Hl & Hle & Hm & _ & _ & Hscr).
  exists sp'. repeat split; try done; [lia|].
  intros Hfit. destruct (appended_lines message sp) as (older & Ho).
  rewrite Hs, Ho. rewrite length_app.
  exists (drop (length older + length (split newline message)
                - Z.to_nat (m_maxLines sp)) older).
  apply drop_app_le. lia.
Qed.

Lemma showMessage_keeps_most_recent_witness :
  exists sp',
    showMessage "three" 1 0 (Splash ("one" +:+ String newline "two") 2 2 1 0 "") = Some sp' /\
    m_message sp' = "two" +:+ String newline "three".
Proof.
  destruct (showMessage_keeps_most_recent "three" 1 0
              (Splash ("one" +:+ String newline "two") 2 2 1 0 "") ltac:(simpl; lia))
    as (sp' & E & Hs & _).
  exists sp'. split; [done|].
  rewrite <- (join_split newline (m_message sp')), Hs. reflexivity.
Defined.

(** X10. [setMaxLines] ignores a bound below 1 (the log and the bound stay
    as they are); a bound of at least 1 is adopted, and a consistent log is
    cut down to its most recent [maxLines] lines, with the window showing
    the shortened log if it showed the log before. *)
Theorem setMaxLines_truncates_or_ignores (n : Z) (sp : CZSplashScreen) :
  lines_ok sp ->
  if (1 <=? n)%Z then
    exists sp',
      setMaxLines n sp = Some sp' /\ maxLines sp' = n /\
      split newline (m_message sp')
        = drop (length (split newline (m_message sp)) - Z.to_nat n)
            (split newline (m_message sp)) /\
      m_lines sp' = (m_lines sp `min` n)%Z /\
      (screen sp = m_message sp -> screen sp' = m_message sp')
  else setMaxLines n sp = Some sp.
Proof.
  intros Hok. destruct (Z.leb_spec 1 n) as [Hn|Hn].
  - destruct (setMaxLines_spec n sp Hn Hok) as (sp' & E & Hs & Hm & Hl & _ & Hscr).
    by exists sp'.
  - unfold setMaxLines. destruct (Z.leb_spec 1 n); [lia|done].
Qed.

Lemma setMaxLines_truncates_or_ignores_witness :
  (exists sp',
     setMaxLines 1 (Splash ("one" +:+ String newline "two") 2 2 1 0 "") = Some sp' /\
     m_message sp' = "two") /\
  setMaxLines 0 (Splash ("one" +:+ String newline "two") 2 2 1 0 "")
    = Some (Splash ("one" +:+ String newline "two") 2 2 1 0 "").
Proof.
  split.
  - destruct (setMaxLines_truncates_or_ignores 1
                (Splash ("one" +:+ String newline "two") 2 2 1 0 "")
                ltac:(by left)) as (sp' & E & _ & Hs & _).
    exists sp'. split; [done|].
    rewrite <- (join_split newline (m_message sp')), Hs. reflexivity.
  - apply (setMaxLines_truncates_or_ignores 0
             (Splash ("one" +:+ String newline "two") 2 2 1 0 "")). by left.
Defined.

(** X11. The constructor, unlike [setMaxLines], accepts any bound.  On a
    splash screen with room for no line ([m_maxLines <= 0], and
    [m_lines - m_maxLines] of line 122 within [int]) [showMessage] never
    displays its message: with a negative bound it removes more lines than
    the log has ([removeFirst] on an empty list), with bound 0 it deletes
    every line and shows an empty log. *)
Theorem showMessage_without_room (message : string) (alignment color : Z)
    (sp : CZSplashScreen) :
  (m_maxLines sp <= 0)%Z ->
  (Z.of_nat (length (split newline (appended message sp))) - m_maxLines sp
     <= INT_MAX)%Z ->
  match showMessage message alignment color sp with
  | None => (m_maxLines sp < 0)%Z
  | Some sp' =>
      m_maxLines sp = 0%Z /\ m_message sp' = EmptyString /\ m_lines sp' = 0%Z /\
      screen sp' = EmptyString
  end.
Proof.
  intros Hmax _.
  pose proof (showMessage_no_room message alignment color sp Hmax) as H.
  destruct (showMessage message alignment color sp); [|done]. tauto.
Qed.

Lemma showMessage_without_room_witness :
  showMessage "Loading" 1 0 (CZSplashScreen_new (-1)) = None /\
  exists sp', showMessage "Loading" 1 0 (CZSplashScreen_new 0) = Some sp' /\
              screen sp' = EmptyString.
Proof.
  split.
  - pose proof (showMessage_without_room "Loading" 1 0 (CZSplashScreen_new (-1))
                  ltac:(simpl; lia) ltac:(vm_compute; discriminate)) as H.
    destruct (showMessage "Loading" 1 0 (CZSplashScreen_new (-1))); [|done].
    simpl in H. lia.
  - pose proof (showMessage_without_room "Loading" 1 0 (CZSplashScreen_new 0)
                  ltac:(simpl; lia) ltac:(vm_compute; discriminate)) as H.
    destruct (showMessage "Loading" 1 0 (CZSplashScreen_new 0)) as [sp'|].
    + exists sp'. split; [done|]. apply H.
    + simpl in H. lia.
Defined.

(** * The version check *)

Lemma left_append p x : QString.left (String.length p) (p +:+ x) = p.
Proof. induction p as [|c p IH]; simpl; [by destruct x|by rewrite IH]. Qed.

Lemma remove_append p x : QString.remove (String.length p) (p +:+ x) = x.
Proof. induction p as [|c p IH]; simpl; [by destruct x|done]. Qed.

Lemma starts_append p x : starts p (p +:+ x) = true.
Proof. unfold starts. rewrite left_append. apply String.eqb_refl. Qed.

Lemma payload_append p x : payload p (p +:+ x) = x.
Proof. apply remove_append. Qed.

Lemma version_line_only cfg v :
  starts nameNotes (nameVersion +:+ v) = false /\
  starts (nameDownload cfg) (nameVersion +:+ v) = false.
Proof. split; reflexivity. Qed.

Lemma scan_line_version cfg st v :
  scan_line cfg st (nameVersion +:+ v)
  = Scan false v EmptyString EmptyString (lastVersion (keep_valid st))
      (downloadUrl (keep_valid st)) (releaseNotes (keep_valid st)).
Proof.
  unfold scan_line. destruct (version_line_only cfg v) as [-> ->].
  by rewrite starts_append, payload_append.
Qed.

Lemma scan_body cfg body : forall st,
  Forall (fun l => starts nameVersion l = false) body ->
  let st' := fold_left (scan_line cfg) body st in
  version st' = version st /\ scan_result st' = scan_result st /\
  notes st' = last_payload nameNotes (notes st) body /\
  url st' = last_payload (nameDownload cfg) (url st) body /\
  validVersion st' = validVersion st || existsb (starts (nameDownload cfg)) body.
Proof.
  induction body as [|l body IH]; intros st Hb; simpl.
  - by rewrite orb_false_r.
  - apply Forall_cons in Hb as [Hl Hb].
    destruct (IH (scan_line cfg st l) Hb) as (Hv & Hr & Hn & Hu & Hvv).
    rewrite Hv, Hr, Hn, Hu, Hvv. unfold scan_line. rewrite Hl.
    destruct (starts nameNotes l), (starts (nameDownload cfg) l), st; simpl;
      rewrite ?orb_true_r, ?orb_false_r; done.
Qed.

Lemma scan_no_download cfg ls : forall st,
  Forall (fun l => starts (nameDownload cfg) l = false) ls ->
  validVersion st = false -> lastVersion st = EmptyString ->
  let st' := fold_left (scan_line cfg) ls st in
  validVersion st' = false /\ lastVersion st' = EmptyString.
Proof.
  induction ls as [|l ls IH]; intros st Hb Hv Hl; simpl; [done|].
  apply Forall_cons in Hb as [Hd Hb]. apply IH; [done| |].
  - unfold scan_line. rewrite Hd.
    destruct (starts nameVersion l), (starts nameNotes l); simpl; done.
  - unfold scan_line, keep_valid. rewrite Hd, Hv.
    destruct (starts nameVersion l), (starts nameNotes l); simpl; done.
Qed.

Lemma unsigned_small z : (0 <= z < 2 ^ 31)%Z -> unsigned_int z = z.
Proof. intros H. unfold unsigned_int. apply Z.mod_small. lia. Qed.

Lemma isEmpty_split s v0 v1 rest :
  split dot s = v0 :: v1 :: rest -> QString.isEmpty s = false.
Proof. by destruct s. Qed.

(** X12. The scan of the history keeps the last version that has a
    download line for this platform.  For a history that ends with a
    [version v] line followed by lines [body] that start no other version:
    if [body] has a [download-<platform>] line the results are [v], the
    address of the last such line and the last release notes of [body]
    (none if [body] has none); otherwise the entry is skipped and the
    results are those of the history before it. *)
Theorem scan_keeps_last_valid_version (cfg : build_config) (pre : list string)
    (v : string) (body : list string) :
  Forall (fun l => starts nameVersion l = false) body ->
  scan_result (scan_history cfg (pre ++ (nameVersion +:+ v) :: body)) =
    if existsb (starts (nameDownload cfg)) body
    then (v, last_payload (nameDownload cfg) EmptyString body,
          last_payload nameNotes EmptyString body)
    else scan_result (scan_history cfg pre).
Proof.
  intros Hb. unfold scan_history. rewrite fold_left_app. simpl.
  rewrite scan_line_version.
  set (st := Scan _ _ _ _ _ _ _).
  destruct (scan_body cfg body st Hb) as (Hv & Hr & Hn & Hu & Hvv).
  simpl in Hv, Hn, Hu, Hvv.
  unfold keep_valid at 1. rewrite Hvv.
  destruct (existsb (starts (nameDownload cfg)) body).
  - unfold scan_result. simpl. by rewrite Hv, Hn, Hu.
  - by rewrite Hr.
Qed.

Lemma scan_keeps_last_valid_version_witness :
  scan_result
    (scan_history linux_0_5_28
       ["version 0.5.28"; "download-linux d1"; "version 0.6.1";
        "release-notes n2"; "download-win32 d2"])
  = ("0.5.28", "d1", "")%string.
Proof.
  exact (scan_keeps_last_valid_version linux_0_5_28
           ["version 0.5.28"; "download-linux d1"] "0.6.1"
           ["release-notes n2"; "download-win32 d2"]
           ltac:(repeat constructor)).
Defined.

(** X13. With version numbers in range (non-negative, minor numbers below
    10000, no overflow of [int]) and a published version of enough
    components, the check succeeds and orders versions by major number,
    then minor number, then build number: it reports a prerelease exactly
    when the published version is older than the running one, and a new
    version exactly when the running one is older, or equal with a lower
    build number. *)
Theorem update_offered_iff_newer (toInt : string -> Z) (cfg : build_config)
    (last : string) (v0 v1 : string) (rest : list string) :
  split dot last = v0 :: v1 :: rest ->
  (CZ_VER_BUILD cfg <> None -> rest <> []) ->
  (0 <= CZ_VER_MAJOR cfg)%Z -> (0 <= CZ_VER_MINOR cfg < 10000)%Z ->
  (GEN_VERSION (CZ_VER_MAJOR cfg) (CZ_VER_MINOR cfg) < 2 ^ 31)%Z ->
  (0 <= toInt v0)%Z -> (0 <= toInt v1 < 10000)%Z ->
  (GEN_VERSION (toInt v0) (toInt v1) < 2 ^ 31)%Z ->
  exists isNewest isNonReleased,
    compare_version toInt cfg last = Some (isNewest, isNonReleased) /\
    (isNonReleased = true <->
       older (toInt v0, toInt v1) (CZ_VER_MAJOR cfg, CZ_VER_MINOR cfg)) /\
    (isNewest = false <->
       older (CZ_VER_MAJOR cfg, CZ_VER_MINOR cfg) (toInt v0, toInt v1) \/
       ((CZ_VER_MAJOR cfg, CZ_VER_MINOR cfg) = (toInt v0, toInt v1) /\
        match CZ_VER_BUILD cfg, rest with
        | Some build, v2 :: _ => (build < toInt v2)%Z
        | _, _ => False
        end)).
Proof.
  intros Hs Hrest HM Hm Hg HM' Hm' Hg'.
  unfold compare_version. rewrite (isEmpty_split _ _ _ _ Hs), Hs. simpl.
  rewrite !unsigned_small by (unfold GEN_VERSION in *; lia).
  unfold GEN_VERSION in *. unfold older. simpl.
  destruct (Z.ltb_spec (CZ_VER_MAJOR cfg * 10000 + CZ_VER_MINOR cfg)
              (toInt v0 * 10000 + toInt v1)) as [Hlt|Hge].
  { exists false, false. split; [done|]. split; split; try done; lia. }
  destruct (Z.eqb_spec (CZ_VER_MAJOR cfg * 10000 + CZ_VER_MINOR cfg)
              (toInt v0 * 10000 + toInt v1)) as [Heq|Hne].
  - assert (CZ_VER_MAJOR cfg = toInt v0 /\ CZ_VER_MINOR cfg = toInt v1) as [E0 E1] by lia.
    destruct (CZ_VER_BUILD cfg) as [build|].
    + destruct rest as [|v2 rest]; [by destruct Hrest|]. simpl.
      exists (negb (build <? toInt v2)%Z), false. split; [done|].
      split; [split; [done|lia]|].
      destruct (Z.ltb_spec build (toInt v2)); simpl; split; try done.
      * intros _. right. split; [congruence|done].
      * intros [?|[_ ?]]; lia.
    + exists true, false. split; [done|]. split; split; try done; try lia;
        intros [?|[_ []]]; lia.
  - exists true, true. split; [done|]. split; split; try done; try lia;
      intros [?|[[= E0 E1] _]]; lia.
Qed.

Lemma update_offered_iff_newer_witness :
  compare_version decimal linux_0_5_28 "0.5.29" = Some (false, false).
Proof.
  destruct (update_offered_iff_newer decimal linux_0_5_28 "0.5.29" "0" "5"
              ["29"%string] eq_refl ltac:(discriminate)
              ltac:(simpl; lia) ltac:(simpl; lia) ltac:(vm_compute; reflexivity)
              ltac:(vm_compute; discriminate) ltac:(vm_compute; split; [discriminate|reflexivity])
              ltac:(vm_compute; reflexivity))
    as (n & r & E & Hr & Hn).
  rewrite E. destruct n.
  - assert (true = false) as [=]. apply Hn. right. split; reflexivity.
  - destruct r; [|reflexivity].
    destruct (proj1 Hr eq_refl) as [H|[_ H]]; vm_compute in H; discriminate.
Defined.

(** X14. When the version check indexes past the components of the
    published version.  For a non-empty last valid version it fails exactly
    if the version has no dot ([versionNumbers[1]]), or has two components,
    equals the running version in major and minor number and the build
    defines [CZ_VER_BUILD] ([versionNumbers[2]]). *)
Theorem version_check_fails_iff (toInt : string -> Z) (cfg : build_config)
    (last : string) :
  compare_version toInt cfg last = None <->
  last <> EmptyString /\
  match split dot last with
  | [_] => True
  | [v0; v1] =>
      CZ_VER_BUILD cfg <> None /\
      unsigned_int (GEN_VERSION (CZ_VER_MAJOR cfg) (CZ_VER_MINOR cfg))
        = unsigned_int (GEN_VERSION (toInt v0) (toInt v1))
  | _ => False
  end.
Proof.
  unfold compare_version. destruct last as [|c r]; simpl QString.isEmpty; cbv iota.
  { split; [done|]. by intros [[] _]. }
  destruct (split_cons dot (String c r)) as (v0 & l & ->).
  destruct l as [|v1 l]; simpl; [done|].
  set (my := unsigned_int _). set (pub := unsigned_int _).
  destruct (Z.ltb_spec my pub) as [Hlt|Hge].
  { split; [done|]. intros [_ H]. destruct l; [lia|done]. }
  destruct (Z.eqb_spec my pub) as [Heq|Hne].
  - destruct (CZ_VER_BUILD cfg) as [build|]; simpl.
    + destruct l; simpl; split; try done. by intros [_ []].
    + split; [done|]. intros [_ H]. destruct l; [by destruct H as [[] _]|done].
  - split; [done|]. intros [_ H]. destruct l; [by destruct H|done].
Qed.

(** X15. If the history has no [download-<platform>] line for the platform
    of the build, no version of it is valid and the user is told
    "No new version was found.", whatever versions it lists. *)
Theorem no_download_no_update (toInt : string -> Z) (cfg : build_config)
    (history : string) :
  Forall (fun l => starts (nameDownload cfg) l = false)
    (split newline (QString.removeChar carriage_return history)) ->
  slotGetHistoryDone toInt cfg false history = Some NoNewVersion.
Proof.
  intros Hb. unfold slotGetHistoryDone, scan_history.
  destruct (scan_no_download cfg _ scan_start Hb eq_refl eq_refl) as [Hv Hl].
  unfold keep_valid. rewrite Hv, Hl. reflexivity.
Qed.

Lemma no_download_no_update_witness :
  slotGetHistoryDone decimal linux_0_5_28 false
    ("version 9.0.1" +:+ String newline "download-win32 d")
  = Some NoNewVersion.
Proof.
  apply no_download_no_update. repeat constructor.
Defined.

(** * The device list of the dialog *)

Section DialogFacts.
Variable cuda : cuda_layer.

Lemma readCudaDevices_fold l : forall d,
  let d' := fold_left (readCudaDevice cuda) l d in
  deviceList d' = deviceList d ++ filter (fun i => readable cuda i = true) l /\
  containers d' = containers d ++ l /\
  measured d' = measured d ++ filter (fun i => readable cuda i = true) l /\
  comboDevice d' = comboDevice d /\ shown d' = shown d.
Proof.
  induction l as [|i l IH]; intros d; simpl.
  - by rewrite !app_nil_r.
  - destruct (IH (readCudaDevice cuda d i)) as (H1 & H2 & H3 & H4 & H5).
    rewrite H1, H2, H3, H4, H5. unfold readCudaDevice.
    rewrite filter_cons. case_decide as Hd; rewrite ?Hd; simpl.
    + by rewrite <- !app_assoc.
    + apply not_true_is_false in Hd. rewrite Hd. simpl. by rewrite <- ?app_assoc.
Qed.

Lemma free_loop_spec l : forall live,
  free_loop l live = filter (fun i => i ∉ l) live.
Proof.
  induction l as [|x l IH]; intros live; simpl.
  - induction live as [|y live IHl]; [done|].
    rewrite filter_cons_True by apply not_elem_of_nil. by rewrite <- IHl.
  - rewrite IH, list_filter_filter. apply list_filter_iff.
    intros i. rewrite not_elem_of_cons. tauto.
Qed.

Lemma filter_ext_elem (P1 P2 : Z -> Prop) `{!forall x, Decision (P1 x)}
    `{!forall x, Decision (P2 x)} (l : list Z) :
  (forall x, x ∈ l -> P1 x <-> P2 x) -> filter P1 l = filter P2 l.
Proof.
  induction l as [|a l IH]; intros Hl; [done|].
  rewrite !filter_cons.
  assert (Ha : P1 a <-> P2 a) by (apply Hl; apply elem_of_cons; by left).
  rewrite IH by (intros x Hx; apply Hl; apply elem_of_cons; by right).
  destruct (decide (P1 a)), (decide (P2 a)); tauto || done.
Qed.

(** X16. The dialog needs a device whose information could be read.  Its
    constructor reads [deviceList[comboDevice->currentIndex()]]: if
    [readInfo] left [major] at 0 for every device (or there is none) the
    list is empty, the index is -1 and the access is out of range;
    otherwise the list holds the devices with [major != 0] in order, each
    measured once by [waitPerformance], and the tabs show the first. *)
Theorem dialog_needs_readable_device (num : Z) :
  match CZDialog_new cuda num with
  | None => forall i, (0 <= i < num)%Z -> major (info (construct cuda i)) = 0%Z
  | Some d =>
      deviceList d = filter (fun i => readable cuda i = true) (seqZ 0 num) /\
      measured d = deviceList d /\
      exists i, shown d = Some i /\ head (deviceList d) = Some i /\
                (0 <= i < num)%Z /\ major (info (construct cuda i)) <> 0%Z
  end.
Proof.
  unfold CZDialog_new, readCudaDevices.
  destruct (readCudaDevices_fold (seqZ 0 num) CZDialog_start) as (H1 & H2 & H3 & _).
  simpl in H1, H2, H3. unfold setupDeviceList, setupDeviceInfo. simpl.
  rewrite H1, H3.
  destruct (filter (fun i => readable cuda i = true) (seqZ 0 num)) as [|i l] eqn:E; simpl.
  - intros i Hi.
    assert (Hin : i ∈ seqZ 0 num) by (apply elem_of_seqZ; lia).
    destruct (readable cuda i) eqn:Er.
    + assert (i ∈ filter (fun i => readable cuda i = true) (seqZ 0 num))
        by (by apply list_elem_of_filter).
      rewrite E in *. by apply elem_of_nil in H.
    + unfold readable in Er. apply negb_false_iff in Er. by apply Z.eqb_eq in Er.
  - split; [done|]. split; [done|]. exists i. repeat split; try done.
    all: assert (Hin : i ∈ filter (fun i => readable cuda i = true) (seqZ 0 num))
      by (rewrite E; apply elem_of_cons; by left).
    all: apply list_elem_of_filter in Hin as [Hr Hin]; apply elem_of_seqZ in Hin.
    all: try lia.
    unfold readable in Hr. apply negb_true_iff in Hr. by apply Z.eqb_neq in Hr.
Qed.

(** X17. The containers of unreadable devices are never deleted.
    [readCudaDevices] creates a container, and with it a started worker
    thread, for every device, but lists only those with [major != 0];
    [freeCudaDevices] deletes the listed ones.  After both, exactly the
    containers of the devices with [major = 0] are left. *)
Theorem unreadable_devices_leak (num : Z) :
  let d := freeCudaDevices (readCudaDevices cuda num CZDialog_start) in
  deviceList d = [] /\
  containers d = filter (fun i => readable cuda i = false) (seqZ 0 num).
Proof.
  unfold readCudaDevices, freeCudaDevices.
  destruct (readCudaDevices_fold (seqZ 0 num) CZDialog_start) as (H1 & H2 & _).
  simpl in *. split; [done|]. rewrite H1, H2, free_loop_spec.
  apply filter_ext_elem. intros i Hi. rewrite list_elem_of_filter.
  destruct (readable cuda i); split; try done; try tauto.
  intros _ [[=] _].
Qed.

End DialogFacts.

(** * The watchdog line of the reports *)

(** X18. The two exports always print the same watchdog line, and it is
    the line of the "Core" tab except when the watchdog state is unknown
    ([watchdogEnabled = -1]): the tab then shows "Unknown" and both exports
    print "Yes". *)
Theorem exports_print_unknown_watchdog_as_yes (watchdogEnabled : Z) :
  slotExportToText_watchdog watchdogEnabled = slotExportToHTML_watchdog watchdogEnabled /\
  (slotExportToText_watchdog watchdogEnabled = setupCoreTab_watchdog watchdogEnabled
     <-> watchdogEnabled <> (-1)%Z) /\
  setupCoreTab_watchdog (-1) = Unknown /\ slotExportToText_watchdog (-1) = Yes.
Proof.
  split; [done|]. split; [|done].
  unfold slotExportToText_watchdog, setupCoreTab_watchdog.
  destruct (Z.eqb_spec watchdogEnabled (-1)) as [->|Hne]; simpl; [done|].
  destruct (watchdogEnabled =? 0)%Z; done.
Qed.
